(** * ChatWithPDF: the Streamlit script [app.py], embedded and verified

    The script is re-executed from top to bottom on every user
    interaction.  It reads and writes [st.session_state], renders
    widgets, calls pdfplumber to extract text and calls the remote chat
    service.  The embedding below keeps that shape: a small monad threads
    the session state, the trace of visible effects and the control
    outcome of a run ([st.rerun()], [st.stop()], an uncaught exception).

    Python strings are sequences of Unicode code points, so a [str] is a
    list of code points; [len] counts code points and [strip] removes
    Unicode whitespace, as CPython does. *)

From Stdlib Require Import String Ascii DecimalString.
From Stdlib Require Import List ZArith NArith Bool Lia.
Import ListNotations.

(* ================================================================= *)
(** ** Python strings *)

Module PyStr.

Definition char := N.
Definition str := list char.

(** An ASCII literal of the source, as code points. *)
Definition lit (s : string) : str :=
  map N_of_ascii (list_ascii_of_string s).

(** The escape [\n]. *)
Definition NL : char := 10%N.

(** [len(s)]: Python integers are unbounded. *)
Definition len (s : str) : Z := Z.of_nat (length s).

(** Truthiness of a string: non-empty. *)
Definition truthy (s : str) : bool :=
  match s with [] => false | _ :: _ => true end.

(** Truthiness of a value that is a string or [None]. *)
Definition truthy_opt (o : option str) : bool :=
  match o with None => false | Some s => truthy s end.

(** [str.isspace] on one code point (CPython's
    [_PyUnicode_IsWhitespace]); this is the set [str.strip()] removes. *)
Definition is_space (c : char) : bool :=
  ((9 <=? c) && (c <=? 13)
   || (28 <=? c) && (c <=? 32)
   || (c =? 133) || (c =? 160) || (c =? 5760)
   || (8192 <=? c) && (c <=? 8202)
   || (c =? 8232) || (c =? 8233) || (c =? 8239)
   || (c =? 8287) || (c =? 12288))%N.

Fixpoint lstrip (s : str) : str :=
  match s with
  | [] => []
  | c :: rest => if is_space c then lstrip rest else s
  end.

Definition rstrip (s : str) : str := rev (lstrip (rev s)).

(** [s.strip()] *)
Definition strip (s : str) : str := rstrip (lstrip s).

Definition char_eqb (a b : char) : bool := N.eqb a b.

(** [s.startswith(p)] *)
Fixpoint startswith (p s : str) : bool :=
  match p, s with
  | [], _ => true
  | _ :: _, [] => false
  | x :: p', y :: s' => char_eqb x y && startswith p' s'
  end.

(** [needle in hay] *)
Fixpoint contains (needle hay : str) : bool :=
  startswith needle hay ||
  match hay with
  | [] => false
  | _ :: hay' => contains needle hay'
  end.

(** [s[:n]] for a non-negative [n]. *)
Definition slice_to (n : nat) (s : str) : str := firstn n s.

(** [str(n)] / [{n}] in an f-string, for a non-negative integer. *)
Definition of_int (n : Z) : str :=
  lit (NilZero.string_of_uint (N.to_uint (Z.to_N n))).

(** What the specification means by a substring and by a trimmed
    string, independently of the executable functions above. *)
Definition Substring (needle hay : str) : Prop :=
  exists l r, hay = l ++ needle ++ r.

Definition Trimmed (s : str) : Prop :=
  (forall c rest, s = c :: rest -> is_space c = false) /\
  (forall c front, s = front ++ [c] -> is_space c = false).

End PyStr.
Import PyStr.

Arguments lit : simpl never.
Arguments len : simpl never.
Arguments of_int : simpl never.

(* ================================================================= *)
(** ** The uploaded PDF, as pdfplumber shows it to the script *)

(** [page.extract_text()] returns a string, returns [None], or raises. *)
Inductive page :=
| PageText (page_text : option str)
| PageRaises (detail : str).

(** [pdfplumber.open(uploaded_file)] raises or yields the pages.  [detail]
    is [str(e)] of the exception. *)
Inductive pdf :=
| OpenRaises (detail : str)
| Opened (pages : list page).

Definition no_text_message : str :=
  lit "No text could be extracted from this PDF.".

Definition error_reading (detail : str) : str :=
  lit "Error reading PDF: " ++ detail ++ lit ". Is it a valid PDF file?".

(** The [for page in pdf.pages] loop of [extract_text_from_pdf]; [inl] is
    an exception leaving the loop, [inr] the final [full_text]. *)
Fixpoint extract_pages (pages : list page) (full_text : str) : str + str :=
  match pages with
  | [] => inr full_text
  | PageRaises detail :: _ => inl detail
  | PageText page_text :: rest =>
      match page_text with
      | Some t =>
          if truthy t
          then extract_pages rest (full_text ++ t ++ [NL; NL])
          else extract_pages rest full_text
      | None => extract_pages rest full_text
      end
  end.

(** [extract_text_from_pdf(uploaded_file)] *)
Definition extract_text_from_pdf (uploaded_file : option pdf) : option str :=
  match uploaded_file with
  | Some (Opened pages) =>
      match extract_pages pages [] with
      | inr full_text =>
          Some (if truthy full_text then strip full_text else no_text_message)
      | inl detail => Some (error_reading detail)
      end
  | Some (OpenRaises detail) => Some (error_reading detail)
  | None => None
  end.

(* ================================================================= *)
(** ** Session state *)

Inductive role_name := user | assistant.

(** One entry of [st.session_state.messages]: the dict
    [{"role": ..., "content": ...}]. *)
Record message := Message { role : role_name; content : str }.

(** The object [model.start_chat(history=[])] returns.  [cs_id] is the
    identity of the Python object; [history] is the dialogue the chat
    service has accumulated on it, one (sent text, reply) pair per
    successful [send_message]. *)
Record ChatSession := { cs_id : nat; history : list (str * str) }.

(** [st.session_state] once lines 42-60 have run: the four keys exist
    (a run in which one could not be created ends in [st.stop()] before
    any handler), so the presence tests of lines 108 and 157 always pass.
    [pdf_text_context] is a string or [None]. *)
Record session_state := {
  chat_session : ChatSession;
  messages : list message;
  pdf_text_context : option str
}.

(** The session together with the allocator of object identities: every
    object created so far has an identity below [next_object]. *)
Record world := { state : session_state; next_object : nat }.

(** How the remote chat service answers [send_message] on a conversation
    with the given history. *)
Inductive api_result :=
| Reply (text : str)
| ApiError (detail : str).

Definition service := list (str * str) -> str -> api_result.

(* ================================================================= *)
(** ** Effects of a run *)

Inductive effect :=
| SidebarError (text : str)
| SidebarSuccess (text : str)
| SidebarSnippet (text : str)
| SidebarInfo (text : str)
| InfoBox (text : str)
| Warning (text : str)
| Error (text : str)
| Success (text : str)
| ChatMarkdown (who : role_name) (text : str)
| SendMessage (handle : nat) (payload : str).

(** How a piece of the script ends: it falls through to the next
    statement, or [st.rerun()] / [st.stop()] / an uncaught exception ends
    the run. *)
Inductive flow (A : Type) :=
| Next (a : A)
| Rerun
| Stop
| Raised (detail : str).
Arguments Next {A} a.
Arguments Rerun {A}.
Arguments Stop {A}.
Arguments Raised {A} detail.

Record outcome (A : Type) := {
  result : flow A;
  final : world;
  shown : list effect
}.

Arguments result {A} o.
Arguments final {A} o.
Arguments shown {A} o.

Definition script (A : Type) := world -> outcome A.

Definition ret {A} (a : A) : script A :=
  fun w => {| result := Next a; final := w; shown := [] |}.

Definition bind {A B} (m : script A) (k : A -> script B) : script B :=
  fun w =>
    let o := m w in
    match result o with
    | Next a =>
        let o' := k a (final o) in
        {| result := result o'; final := final o'; shown := shown o ++ shown o' |}
    | Rerun => {| result := Rerun; final := final o; shown := shown o |}
    | Stop => {| result := Stop; final := final o; shown := shown o |}
    | Raised d => {| result := Raised d; final := final o; shown := shown o |}
    end.

Declare Scope script_scope.
Delimit Scope script_scope with script.
Notation "x <- m ;; k" := (bind m (fun x => k))
  (at level 61, m at next level, right associativity) : script_scope.
Notation "m ;; k" := (bind m (fun _ => k))
  (at level 61, right associativity) : script_scope.
Open Scope script_scope.

Definition emit (e : effect) : script unit :=
  fun w => {| result := Next tt; final := w; shown := [e] |}.

Definition rerun : script unit :=
  fun w => {| result := Rerun; final := w; shown := [] |}.

Definition raise {A} (detail : str) : script A :=
  fun w => {| result := Raised detail; final := w; shown := [] |}.

Definition read : script session_state :=
  fun w => {| result := Next (state w); final := w; shown := [] |}.

Definition modify (f : session_state -> session_state) : script unit :=
  fun w => {| result := Next tt;
              final := {| state := f (state w); next_object := next_object w |};
              shown := [] |}.

(** [st.session_state.chat_session = c] and its two siblings. *)
Definition set_chat_session (c : ChatSession) : script unit :=
  modify (fun s => {| chat_session := c; messages := messages s;
                      pdf_text_context := pdf_text_context s |}).

Definition set_messages (ms : list message) : script unit :=
  modify (fun s => {| chat_session := chat_session s; messages := ms;
                      pdf_text_context := pdf_text_context s |}).

Definition set_pdf_text_context (t : option str) : script unit :=
  modify (fun s => {| chat_session := chat_session s; messages := messages s;
                      pdf_text_context := t |}).

(** [st.session_state.messages.append(m)] *)
Definition append_message (m : message) : script unit :=
  modify (fun s => {| chat_session := chat_session s;
                      messages := messages s ++ [m];
                      pdf_text_context := pdf_text_context s |}).

(** [st.session_state.model.start_chat(history=[])]: a new object with an
    empty history. *)
Definition start_chat : script ChatSession :=
  fun w => {| result := Next {| cs_id := next_object w; history := [] |};
              final := {| state := state w; next_object := S (next_object w) |};
              shown := [] |}.

(** [try: body  except Exception as e: handler(str(e))] *)
Definition try_except {A} (body : script A) (handler : str -> script A)
  : script A :=
  fun w =>
    let o := body w in
    match result o with
    | Raised d =>
        let o' := handler d (final o) in
        {| result := result o'; final := final o'; shown := shown o ++ shown o' |}
    | _ => o
    end.

Definition stop : script unit :=
  fun w => {| result := Stop; final := w; shown := [] |}.

(* ================================================================= *)
(** ** The script *)

Definition MODEL_NAME : str := lit "gemini-2.0-flash".

(** Lines 12-22: the credential check.  [configure_raises] is [str(e)] when
    [genai.configure] raises. *)
Definition configuration (GOOGLE_API_KEY : option str)
    (configure_raises : option str) : script unit :=
  if negb (truthy_opt GOOGLE_API_KEY) then
    emit (Error ([128680%N] ++ lit " GOOGLE_API_KEY not found! Please set it in your .env file or environment variables.")) ;;
    stop
  else
    match configure_raises with
    | Some e =>
        emit (Error ([128680%N] ++ lit " Error configuring Google AI: " ++ e)) ;;
        stop
    | None => ret tt
    end.

(** Lines 49-60 on a session that has no key yet: the first chat session,
    no message, no PDF text. *)
Definition new_session (first_object : nat) : world :=
  {| state := {| chat_session := {| cs_id := first_object; history := [] |};
                 messages := [];
                 pdf_text_context := None |};
     next_object := S first_object |}.

(** *** Process PDF (lines 71-88) *)

(** The test of line 75. *)
Definition is_failure_text (extracted_text : str) : bool :=
  contains (lit "Error reading PDF") extracted_text
  || contains (lit "No text could be extracted") extracted_text.

(** Lines 79-88: the branch that loads the document. *)
Definition load_pdf_text (extracted_text : str) : script unit :=
  set_pdf_text_context (Some extracted_text) ;;
  emit (SidebarSuccess ([9989%N] ++ lit " PDF processed! You can now ask questions about its content.")) ;;
  emit (SidebarSnippet (slice_to 500 extracted_text ++ lit "...")) ;;
  emit (SidebarInfo (lit "Total characters extracted: " ++ of_int (len extracted_text))) ;;
  set_messages [] ;;
  c <- start_chat ;;
  set_chat_session c ;;
  rerun.

(** Lines 74-88: the body run when the button is pressed. *)
Definition process_pdf (uploaded_pdf : pdf) : script unit :=
  match extract_text_from_pdf (Some uploaded_pdf) with
  | Some extracted_text =>
      if is_failure_text extracted_text then
        emit (SidebarError extracted_text) ;;
        set_pdf_text_context None
      else
        load_pdf_text extracted_text
  | None => raise (lit "argument of type 'NoneType' is not iterable")
  end.

Definition process_pdf_block (uploaded_pdf : option pdf) (clicked : bool)
  : script unit :=
  match uploaded_pdf with
  | Some f => if clicked then process_pdf f else ret tt
  | None => ret tt
  end.

(** *** Clear PDF Context & Chat (lines 91-98) *)

(** Lines 94-98. *)
Definition clear_pdf_context_and_chat : script unit :=
  set_pdf_text_context None ;;
  set_messages [] ;;
  c <- start_chat ;;
  set_chat_session c ;;
  emit (SidebarInfo (lit "PDF context and chat cleared.")) ;;
  rerun.

(** The button is rendered, and so can be pressed, only under the test of
    line 91. *)
Definition pdf_context_block (clicked : bool) : script unit :=
  s <- read ;;
  if truthy_opt (pdf_text_context s) then
    emit (InfoBox ([8505%N; 65039%N] ++ lit " PDF context is loaded. Your questions will be answered based on the uploaded document.")) ;;
    if clicked then clear_pdf_context_and_chat else ret tt
  else ret tt.

(** *** The transcript (lines 102-104) *)

Fixpoint display (ms : list message) : script unit :=
  match ms with
  | [] => ret tt
  | msg :: rest => emit (ChatMarkdown (role msg) (content msg)) ;; display rest
  end.

Definition display_messages : script unit :=
  s <- read ;; display (messages s).

(** *** Chat input (lines 107-151) *)

Definition TRUNCATION_THRESHOLD : Z := 28000.

Definition truncation_warning : str :=
  [9888%N; 65039%N] ++ lit " The PDF content combined with your question is very long. The answer might be truncated or an error might occur. Consider asking about specific parts or using a smaller PDF.".

(** The f-string of lines 122-128. *)
Definition statement_prompt (pdf_text prompt : str) : str :=
  lit "Based on the following bank statement text, please answer the user's question." ++ [NL; NL]
  ++ lit "--- BANK STATEMENT TEXT START ---" ++ [NL]
  ++ pdf_text ++ [NL]
  ++ lit "--- BANK STATEMENT TEXT END ---" ++ [NL; NL]
  ++ lit "User's Question: " ++ prompt.

Arguments truncation_warning : simpl never.
Arguments statement_prompt : simpl never.

(** Lines 118-134: the prompt that will be sent, with the warning. *)
Definition prepare_prompt (prompt : str) : script str :=
  s <- read ;;
  if truthy_opt (pdf_text_context s) then
    let final_prompt :=
      statement_prompt
        (match pdf_text_context s with Some t => t | None => lit "None" end)
        prompt in
    (if (TRUNCATION_THRESHOLD <? len final_prompt)%Z
     then emit (Warning truncation_warning) else ret tt) ;;
    ret final_prompt
  else ret prompt.

(** [st.session_state.chat_session.send_message(text)] followed by
    [response.text]: the call is made; the service replies, and the
    exchange joins the history of the conversation, or the call raises. *)
Definition send_message (remote : service) (text : str) : script str :=
  fun w =>
    let c := chat_session (state w) in
    match remote (history c) text with
    | Reply bot_reply =>
        {| result := Next bot_reply;
           final := {| state := {| chat_session :=
                                     {| cs_id := cs_id c;
                                        history := history c ++ [(text, bot_reply)] |};
                                   messages := messages (state w);
                                   pdf_text_context := pdf_text_context (state w) |};
                       next_object := next_object w |};
           shown := [SendMessage (cs_id c) text] |}
    | ApiError detail =>
        {| result := Raised detail; final := w;
           shown := [SendMessage (cs_id c) text] |}
    end.

Definition communication_error (detail : str) : str :=
  [10060%N] ++ lit " Error communicating with Gemini: " ++ detail.

Arguments communication_error : simpl never.

(** Lines 137-151: the exchange with the service. *)
Definition get_response (remote : service) (final_prompt : str) : script unit :=
  try_except
    (bot_reply <- send_message remote final_prompt ;;
     emit (ChatMarkdown assistant bot_reply) ;;
     append_message {| role := assistant; content := bot_reply |})
    (fun e =>
       let error_message := communication_error e in
       emit (Error error_message) ;;
       append_message {| role := assistant; content := error_message |}).

(** Lines 112-151: the body run for a submitted [prompt]. *)
Definition chat (remote : service) (prompt : str) : script unit :=
  append_message {| role := user; content := prompt |} ;;
  emit (ChatMarkdown user prompt) ;;
  final_prompt <- prepare_prompt prompt ;;
  get_response remote final_prompt.

(** [st.chat_input] yields [None] or the submitted text; the walrus test
    of line 107 lets a non-empty text through. *)
Definition chat_block (remote : service) (chat_input : option str)
  : script unit :=
  match chat_input with
  | Some prompt => if truthy prompt then chat remote prompt else ret tt
  | None => ret tt
  end.

(** *** Clear Chat Only (lines 156-165) *)

(** Lines 157-163; the model is in the session state. *)
Definition clear_chat_only : script unit :=
  c <- start_chat ;;
  set_chat_session c ;;
  set_messages [] ;;
  emit (Success (lit "Chat messages cleared! PDF context remains.")) ;;
  rerun.

Definition clear_chat_block (clicked : bool) : script unit :=
  if clicked then clear_chat_only else ret tt.

(** *** One run of the script *)

Record inputs := {
  uploaded_pdf : option pdf;
  process_clicked : bool;
  clear_pdf_clicked : bool;
  chat_input : option str;
  clear_chat_clicked : bool
}.

Definition app (remote : service) (i : inputs) : script unit :=
  process_pdf_block (uploaded_pdf i) (process_clicked i) ;;
  pdf_context_block (clear_pdf_clicked i) ;;
  display_messages ;;
  chat_block remote (chat_input i) ;;
  clear_chat_block (clear_chat_clicked i).

Arguments app : simpl never.

(** *** Reading a run *)

(** The warnings a run surfaced. *)
Definition warned (es : list effect) : bool :=
  existsb (fun e => match e with Warning _ => true | _ => false end) es.

(** The payloads a run handed to the chat service, in order. *)
Fixpoint sent (es : list effect) : list str :=
  match es with
  | [] => []
  | SendMessage _ payload :: rest => payload :: sent rest
  | _ :: rest => sent rest
  end.

(** The chat session in use was created before now. *)
Definition well_formed (w : world) : Prop :=
  cs_id (chat_session (state w)) < next_object w.

(** *** Reading the extractor *)

(** The text of the pages in page order, each non-empty page text
    followed by a blank line: what the loop accumulates when no page
    raises. *)
Fixpoint joined_text (pages : list page) : str :=
  match pages with
  | [] => []
  | PageText (Some t) :: rest =>
      (if truthy t then t ++ [NL; NL] else []) ++ joined_text rest
  | _ :: rest => joined_text rest
  end.

Definition page_raises (p : page) : bool :=
  match p with PageRaises _ => true | PageText _ => false end.

(** What one of the three session operations does to the chat: no
    message is left and the chat session is a new object, with an empty
    history, different from the one in use before. *)
Definition chat_reset (before after : world) : Prop :=
  messages (state after) = []
  /\ cs_id (chat_session (state after)) <> cs_id (chat_session (state before))
  /\ history (chat_session (state after)) = []
  /\ well_formed after.

(** How a piece of the script can end, as far as the chat session is
    concerned: it goes on with the same chat session object, or it ends
    the run having emptied the messages and installed the next new
    object. *)
Definition keeps_chat (w : world) (o : outcome unit) : Prop :=
  result o = Next tt
  /\ cs_id (chat_session (state (final o))) = cs_id (chat_session (state w))
  /\ next_object (final o) = next_object w.

Definition restarts_chat (w : world) (o : outcome unit) : Prop :=
  result o = Rerun
  /\ messages (state (final o)) = []
  /\ history (chat_session (state (final o))) = []
  /\ cs_id (chat_session (state (final o))) = next_object w
  /\ next_object (final o) = S (next_object w).

(** Concrete inputs used in the examples below. *)

Definition text_of_length (n : N) : str := repeat 97%N (N.to_nat n).

Definition blank_page_pdf : pdf := Opened [PageText (Some (lit " "))].

Definition two_page_pdf : pdf :=
  Opened [PageText (Some (lit "Balance: $100"));
          PageText (Some (lit "Balance: $200"))].

Definition phrase_pdf : pdf :=
  Opened [PageText (Some (lit "Error reading PDF files is a frequent support request."))].

Definition unreadable_pdf : pdf := OpenRaises (lit "No /Root object!").

Definition loaded_world : world :=
  {| state := {| chat_session := {| cs_id := 1; history := [] |};
                 messages := [ {| role := user; content := lit "What is the balance?" |};
                               {| role := assistant; content := lit "$100" |} ];
                 pdf_text_context := Some (lit "Balance: $100") |};
     next_object := 2 |}.

Definition empty_text_world : world :=
  {| state := {| chat_session := {| cs_id := 1; history := [] |};
                 messages := [];
                 pdf_text_context := Some [] |};
     next_object := 2 |}.

Definition quota_exceeded : service :=
  fun _ _ => ApiError (lit "quota exceeded").

Definition echo : service := fun _ text => Reply text.


Definition question : str := lit "What is the balance?".

Definition statement_world (n : N) : world :=
  {| state := {| chat_session := {| cs_id := 0; history := [] |};
                 messages := [];
                 pdf_text_context := Some (text_of_length n) |};
     next_object := 1 |}.

(* ================================================================= *)
(** ** Session initialisation (lines 42-60) *)

(** The object [genai.GenerativeModel(MODEL_NAME)]. *)
Record GenerativeModel := { model_name : str }.

(** [st.session_state] as the dictionary it is before and while lines
    42-60 run: each of the four keys may be missing. *)
Record raw_session := {
  model_key : option GenerativeModel;
  chat_session_key : option ChatSession;
  messages_key : option (list message);
  pdf_text_context_key : option (option str)
}.

Definition set_model_key (m : GenerativeModel) (r : raw_session) : raw_session :=
  {| model_key := Some m; chat_session_key := chat_session_key r;
     messages_key := messages_key r;
     pdf_text_context_key := pdf_text_context_key r |}.

Definition set_chat_session_key (c : ChatSession) (r : raw_session)
  : raw_session :=
  {| model_key := model_key r; chat_session_key := Some c;
     messages_key := messages_key r;
     pdf_text_context_key := pdf_text_context_key r |}.

Definition set_messages_key (ms : list message) (r : raw_session)
  : raw_session :=
  {| model_key := model_key r; chat_session_key := chat_session_key r;
     messages_key := Some ms;
     pdf_text_context_key := pdf_text_context_key r |}.

Definition set_pdf_text_context_key (t : option str) (r : raw_session)
  : raw_session :=
  {| model_key := model_key r; chat_session_key := chat_session_key r;
     messages_key := messages_key r;
     pdf_text_context_key := Some t |}.

Record init_outcome := {
  init_result : flow unit;
  init_session : raw_session;
  init_next : nat;
  init_shown : list effect
}.

Definition model_init_error (e : str) : str :=
  [128680%N] ++ lit " Error initializing GenerativeModel (" ++ MODEL_NAME
  ++ lit "): " ++ e.

Definition model_missing_error : str :=
  lit "Model not initialized, cannot start chat.".

(** Lines 42-60.  [model_raises] is [str(e)] when creating the model
    raises; [next] is the identity the next chat session object gets. *)
Definition initialise (model_raises : option str) (r : raw_session)
    (next : nat) : init_outcome :=
  let after_model :=
    match model_key r with
    | Some _ => inr r
    | None =>
        match model_raises with
        | Some e => inl (Error (model_init_error e))
        | None => inr (set_model_key {| model_name := MODEL_NAME |} r)
        end
    end in
  match after_model with
  | inl err =>
      {| init_result := Stop; init_session := r; init_next := next;
         init_shown := [err] |}
  | inr r1 =>
      let after_chat :=
        match chat_session_key r1 with
        | Some _ => inr (r1, next)
        | None =>
            match model_key r1 with
            | Some _ =>
                inr (set_chat_session_key {| cs_id := next; history := [] |} r1,
                     S next)
            | None => inl (Error model_missing_error)
            end
        end in
      match after_chat with
      | inl err =>
          {| init_result := Stop; init_session := r1; init_next := next;
             init_shown := [err] |}
      | inr (r2, next2) =>
          let r3 :=
            match messages_key r2 with
            | Some _ => r2
            | None => set_messages_key [] r2
            end in
          let r4 :=
            match pdf_text_context_key r3 with
            | Some _ => r3
            | None => set_pdf_text_context_key None r3
            end in
          {| init_result := Next tt; init_session := r4; init_next := next2;
             init_shown := [] |}
      end
  end.

(** The session dictionary of a session that has run nothing yet. *)
Definition no_key : raw_session :=
  {| model_key := None; chat_session_key := None; messages_key := None;
     pdf_text_context_key := None |}.


(* ================================================================= *)
(** ** Sessions over several runs *)

(** The credential check followed by the rest of the script, on a session
    that is initialised. *)
Definition main (GOOGLE_API_KEY configure_raises : option str)
    (remote : service) (i : inputs) : script unit :=
  configuration GOOGLE_API_KEY configure_raises ;;
  app remote i.

(** A run in which no button is pressed and nothing is submitted, such as
    the run [st.rerun()] starts. *)
Definition idle (f : option pdf) : inputs :=
  {| uploaded_pdf := f; process_clicked := false; clear_pdf_clicked := false;
     chat_input := None; clear_chat_clicked := false |}.


(** What the transcript loop renders for a list of messages. *)
Definition transcript (ms : list message) : list effect :=
  map (fun m => ChatMarkdown (role m) (content m)) ms.

Definition role_eqb (a b : role_name) : bool :=
  match a, b with
  | user, user | assistant, assistant => true
  | _, _ => false
  end.

Definition other (r : role_name) : role_name :=
  match r with user => assistant | assistant => user end.

(** The messages come in turns, starting with [expected], and the last
    one is the assistant's. *)
Fixpoint turns (expected : role_name) (ms : list message) : bool :=
  match ms with
  | [] => role_eqb expected user
  | m :: rest => role_eqb (role m) expected && turns (other expected) rest
  end.

Definition alternating (w : world) : Prop :=
  turns user (messages (state w)) = true.

(** The stored document is no failure text and carries no whitespace at
    either end. *)
Definition document_clean (w : world) : Prop :=
  match pdf_text_context (state w) with
  | None => True
  | Some t => is_failure_text t = false /\ Trimmed t
  end.

(** A PDF from which no text comes: it cannot be opened, a page raises,
    or no page has text. *)
Definition unreadable (f : pdf) : bool :=
  match f with
  | OpenRaises _ => true
  | Opened pages =>
      existsb page_raises pages || negb (truthy (joined_text pages))
  end.

Definition preserves {A : Type} (P : world -> Prop) (m : script A) : Prop :=
  forall w, P w -> P (final (m w)).

(** A run hands nothing to the chat service. *)
Definition silent {A : Type} (m : script A) : Prop :=
  forall w, sent (shown (m w)) = [].

(* ================================================================= *)
(** ** Strings: the executable functions meet their meaning *)

Section Strings.

Lemma char_eqb_eq (a b : char) : char_eqb a b = true <-> a = b.
Proof. unfold char_eqb. apply N.eqb_eq. Qed.

Lemma startswith_spec (p s : str) :
  startswith p s = true <-> exists r, s = p ++ r.
Proof.
  revert s. induction p as [|x p IH]; intros s; simpl.
  - split; [intros _; now exists s | reflexivity].
  - destruct s as [|y s].
    + split; [discriminate | intros [r Hr]; discriminate Hr].
    + rewrite andb_true_iff, char_eqb_eq, IH. split.
      * intros [-> [r ->]]. now exists r.
      * intros [r Hr]. injection Hr as -> ->. split; [reflexivity | now exists r].
Qed.

Lemma contains_spec (needle hay : str) :
  contains needle hay = true <-> Substring needle hay.
Proof.
  unfold Substring. induction hay as [|c hay IH].
  - simpl. rewrite orb_false_r, startswith_spec. split.
    + intros [r Hr]. now exists [], r.
    + intros [l [r Hr]]. destruct l; [now exists r | discriminate Hr].
  - simpl contains. rewrite orb_true_iff, startswith_spec, IH. split.
    + intros [[r Hr] | [l [r Hr]]].
      * now exists [], r.
      * exists (c :: l), r. simpl. now rewrite Hr.
    + intros [l [r Hr]]. destruct l as [|c' l].
      * left. now exists r.
      * right. injection Hr as _ Hr. now exists l, r.
Qed.

Lemma contains_false (needle hay : str) :
  contains needle hay = false <-> ~ Substring needle hay.
Proof.
  rewrite <- contains_spec. destruct (contains needle hay); split;
    congruence.
Qed.

(** [lstrip] removes a prefix of whitespace and stops at the first
    character that is not. *)
Lemma lstrip_split (s : str) :
  exists pre, s = pre ++ lstrip s /\ forallb is_space pre = true.
Proof.
  induction s as [|c s [pre [H1 H2]]]; simpl.
  - now exists [].
  - destruct (is_space c) eqn:E.
    + exists (c :: pre). simpl. rewrite E, H2. split; [now f_equal | reflexivity].
    + now exists [].
Qed.

Lemma lstrip_head (s : str) c rest :
  lstrip s = c :: rest -> is_space c = false.
Proof.
  induction s as [|x s IH]; simpl; [discriminate|].
  destruct (is_space x) eqn:E; [exact IH|].
  intros H. injection H as <- _. exact E.
Qed.

Lemma lstrip_all_space (s : str) :
  lstrip s = [] <-> forallb is_space s = true.
Proof.
  induction s as [|x s IH]; simpl; [tauto|].
  destruct (is_space x); simpl; [exact IH|]. split; discriminate.
Qed.

Lemma lstrip_fixed (s : str) c rest :
  s = c :: rest -> is_space c = false -> lstrip s = s.
Proof. intros -> H. simpl. now rewrite H. Qed.

Lemma rstrip_last (s : str) c front :
  rstrip s = front ++ [c] -> is_space c = false.
Proof.
  unfold rstrip. intros H.
  apply (f_equal (@rev char)) in H.
  rewrite rev_involutive, rev_app_distr in H. simpl in H.
  eapply lstrip_head; eassumption.
Qed.

Lemma rstrip_split (s : str) :
  exists post, s = rstrip s ++ post /\ forallb is_space post = true.
Proof.
  unfold rstrip. destruct (lstrip_split (rev s)) as [pre [H1 H2]].
  exists (rev pre). split.
  - rewrite <- rev_app_distr, <- H1. symmetry. apply rev_involutive.
  - rewrite forallb_forall in *. intros x Hx. apply H2. now apply in_rev.
Qed.

Lemma rstrip_all_space (s : str) :
  rstrip s = [] <-> forallb is_space s = true.
Proof.
  unfold rstrip. split; intros H.
  - apply (f_equal (@rev char)) in H. rewrite rev_involutive in H. simpl in H.
    apply lstrip_all_space in H. rewrite forallb_forall in *.
    intros x Hx. apply H. now apply -> in_rev.
  - assert (Hr : lstrip (rev s) = []).
    { apply lstrip_all_space. rewrite forallb_forall in *.
      intros x Hx. apply H. now apply in_rev in Hx. }
    now rewrite Hr.
Qed.

Lemma rstrip_fixed (front : str) (c : char) :
  is_space c = false -> rstrip (front ++ [c]) = front ++ [c].
Proof.
  intros H. unfold rstrip. rewrite rev_app_distr. simpl.
  rewrite H. simpl. now rewrite rev_involutive.
Qed.

Lemma rstrip_blank_line (s : str) : rstrip (s ++ [NL; NL]) = rstrip s.
Proof. unfold rstrip. rewrite rev_app_distr. reflexivity. Qed.

(** A trimmed text followed by a blank line is that text again once
    stripped. *)
Lemma strip_blank_line (s : str) :
  Trimmed s -> strip (s ++ [NL; NL]) = s.
Proof.
  intros [Hh Hl]. unfold strip.
  destruct s as [|c s]; [reflexivity|].
  rewrite (lstrip_fixed ((c :: s) ++ [NL; NL]) c (s ++ [NL; NL]) eq_refl)
    by (apply (Hh c s eq_refl)).
  rewrite rstrip_blank_line.
  destruct (exists_last (l := c :: s)) as (front & x & E); [discriminate|].
  rewrite E. apply rstrip_fixed. now apply (Hl x front).
Qed.

(** The result of [strip] neither starts nor ends with whitespace. *)
Lemma strip_trimmed (s : str) : Trimmed (strip s).
Proof.
  unfold Trimmed, strip. split.
  - intros c rest H.
    destruct (rstrip_split (lstrip s)) as [post [H1 _]].
    rewrite H in H1. simpl in H1. eapply lstrip_head; eassumption.
  - intros c front H. eapply rstrip_last; eassumption.
Qed.

(** [strip] yields the empty string exactly on strings made of
    whitespace only. *)
Lemma strip_empty (s : str) :
  strip s = [] <-> forallb is_space s = true.
Proof.
  unfold strip. rewrite rstrip_all_space.
  destruct (lstrip_split s) as [pre [H1 H2]]. split; intros H.
  - rewrite H1, forallb_app, H2, H. reflexivity.
  - rewrite H1, forallb_app in H. now apply andb_true_iff in H.
Qed.

End Strings.

(* ================================================================= *)
(** ** The extractor *)

Section Extractor.

Lemma extract_pages_joined (pages : list page) (acc : str) :
  existsb page_raises pages = false ->
  extract_pages pages acc = inr (acc ++ joined_text pages).
Proof.
  revert acc. induction pages as [|p pages IH]; intros acc H; simpl.
  - now rewrite app_nil_r.
  - destruct p as [[t|]|d]; simpl in H; try discriminate.
    + destruct (truthy t); rewrite IH by exact H.
      * now rewrite <- !app_assoc.
      * reflexivity.
    + now apply IH.
Qed.

(** A page that raises makes the whole extraction an error text. *)
Lemma extract_pages_raises (pages : list page) (acc : str) :
  existsb page_raises pages = true ->
  exists detail, extract_pages pages acc = inl detail.
Proof.
  revert acc. induction pages as [|p pages IH]; intros acc H; simpl in *.
  - discriminate.
  - destruct p as [[t|]|d]; simpl in H.
    + destruct (truthy t); now apply IH.
    + now apply IH.
    + now exists d.
Qed.

(** No page with text: the fixed message. *)
Lemma extract_no_text (pages : list page) :
  existsb page_raises pages = false ->
  joined_text pages = [] ->
  extract_text_from_pdf (Some (Opened pages)) = Some no_text_message.
Proof.
  intros Hr Hj. unfold extract_text_from_pdf.
  rewrite extract_pages_joined by exact Hr. now rewrite Hj.
Qed.

(** Text that is more than whitespace: the trimmed text, not empty. *)
Lemma extract_trimmed_text (pages : list page) :
  existsb page_raises pages = false ->
  strip (joined_text pages) <> [] ->
  extract_text_from_pdf (Some (Opened pages)) = Some (strip (joined_text pages))
  /\ Trimmed (strip (joined_text pages)).
Proof.
  intros Hr Hs. unfold extract_text_from_pdf.
  rewrite extract_pages_joined by exact Hr. simpl.
  destruct (joined_text pages) eqn:E.
  - now destruct Hs.
  - split; [reflexivity | apply strip_trimmed].
Qed.

(** Some page has text: the trimmed concatenation is returned, whatever
    it is. *)
Lemma extract_joined (pages : list page) :
  existsb page_raises pages = false ->
  joined_text pages <> [] ->
  extract_text_from_pdf (Some (Opened pages)) = Some (strip (joined_text pages)).
Proof.
  intros Hr Hj. unfold extract_text_from_pdf.
  rewrite extract_pages_joined by exact Hr. simpl.
  destruct (joined_text pages); [now destruct Hj | reflexivity].
Qed.

(** Two pages with trimmed, non-empty texts: the first text, a blank
    line, the second text, and nothing after it. *)
Lemma extract_two_trimmed_pages (a b : str) :
  Trimmed a -> Trimmed b -> a <> [] -> b <> [] ->
  extract_text_from_pdf (Some (Opened [PageText (Some a); PageText (Some b)]))
  = Some (a ++ [NL; NL] ++ b).
Proof.
  intros [Ha _] [_ Hb] Hna Hnb.
  destruct a as [|x a]; [now destruct Hna|].
  destruct b as [|y b]; [now destruct Hnb|].
  rewrite extract_joined by (reflexivity || discriminate).
  f_equal.
  assert (E : joined_text [PageText (Some (x :: a)); PageText (Some (y :: b))]
              = ((x :: a) ++ [NL; NL] ++ y :: b) ++ [NL; NL]).
  { cbn [joined_text truthy]. rewrite app_nil_r, <- !app_assoc. reflexivity. }
  transitivity (strip (((x :: a) ++ [NL; NL] ++ y :: b) ++ [NL; NL]));
    [f_equal; exact E|].
  apply strip_blank_line. split.
  - intros c rest Hc. injection Hc as <- _. now apply (Ha x a).
  - intros c front Hc.
    destruct (exists_last (l := y :: b)) as (fb & z & Eb); [discriminate|].
    rewrite Eb in Hc.
    assert (Hc' : ((x :: a) ++ [NL; NL] ++ fb) ++ [z] = front ++ [c])
      by (rewrite <- Hc, <- !app_assoc; reflexivity).
    apply app_inj_tail in Hc'. destruct Hc' as [_ <-].
    now apply (Hb z fb).
Qed.

(** An uploaded file always yields a string. *)
Lemma extract_some (f : pdf) :
  exists t, extract_text_from_pdf (Some f) = Some t.
Proof.
  destruct f as [d | pages]; simpl; [eauto|].
  destruct (extract_pages pages []); eauto.
Qed.

(** C2 (the code departs from the claim).  A one-page PDF whose page
    extracts to a single space opens without raising and the
    concatenation of its page texts is empty after trimming, yet
    [extract_text_from_pdf] returns the empty string: neither the
    "No text could be extracted" message nor a non-empty text. *)
Theorem extract_blank_page_returns_empty :
  extract_pages [PageText (Some (lit " "))] [] = inr (lit " " ++ [NL; NL])
  /\ strip (lit " " ++ [NL; NL]) = []
  /\ extract_text_from_pdf (Some blank_page_pdf) = Some []
  /\ extract_text_from_pdf (Some blank_page_pdf) <> Some no_text_message.
Proof.
  repeat split; try reflexivity. discriminate.
Qed.

(** C3.  The two-page statement "Balance: $100" / "Balance: $200" is
    extracted as the two page texts in page order with one blank line
    between them and nothing after the second. *)
Theorem extract_two_pages :
  extract_text_from_pdf (Some two_page_pdf)
  = Some (lit "Balance: $100" ++ [NL; NL] ++ lit "Balance: $200").
Proof. reflexivity. Qed.

End Extractor.

(* ================================================================= *)
(** ** Process PDF *)

Section ProcessPdf.

Lemma error_reading_is_failure (detail : str) :
  is_failure_text (error_reading detail) = true.
Proof.
  unfold is_failure_text. apply orb_true_iff. left.
  apply contains_spec. exists [], (lit ": " ++ detail ++ lit ". Is it a valid PDF file?").
  reflexivity.
Qed.

Lemma no_text_is_failure : is_failure_text no_text_message = true.
Proof. reflexivity. Qed.

Lemma is_failure_text_spec (t : str) :
  is_failure_text t = true <->
  Substring (lit "Error reading PDF") t
  \/ Substring (lit "No text could be extracted") t.
Proof.
  unfold is_failure_text. now rewrite orb_true_iff, !contains_spec.
Qed.

(** The two branches of the handler, as equations. *)
Lemma process_pdf_failure_eq (f : pdf) (w : world) (t : str) :
  extract_text_from_pdf (Some f) = Some t ->
  is_failure_text t = true ->
  process_pdf f w =
  {| result := Next tt;
     final := {| state := {| chat_session := chat_session (state w);
                             messages := messages (state w);
                             pdf_text_context := None |};
                 next_object := next_object w |};
     shown := [SidebarError t] |}.
Proof.
  intros He Hf. unfold process_pdf. rewrite He, Hf. reflexivity.
Qed.

Lemma process_pdf_success_eq (f : pdf) (w : world) (t : str) :
  extract_text_from_pdf (Some f) = Some t ->
  is_failure_text t = false ->
  process_pdf f w =
  {| result := Rerun;
     final := {| state := {| chat_session := {| cs_id := next_object w; history := [] |};
                             messages := [];
                             pdf_text_context := Some t |};
                 next_object := S (next_object w) |};
     shown := [SidebarSuccess ([9989%N] ++ lit " PDF processed! You can now ask questions about its content.");
               SidebarSnippet (slice_to 500 t ++ lit "...");
               SidebarInfo (lit "Total characters extracted: " ++ of_int (len t))] |}.
Proof.
  intros He Hf. unfold process_pdf. rewrite He, Hf. reflexivity.
Qed.

(** C1 (as amended).  When the extraction of a Process PDF action is a
    failure, the handler shows the failure text in the sidebar, does not
    end the run, sets [pdf_text_context] to [None], and leaves [messages]
    and [chat_session] as they were. *)
Theorem process_pdf_failure (f : pdf) (w : world) (t : str) :
  extract_text_from_pdf (Some f) = Some t ->
  is_failure_text t = true ->
  shown (process_pdf f w) = [SidebarError t]
  /\ result (process_pdf f w) = Next tt
  /\ pdf_text_context (state (final (process_pdf f w))) = None
  /\ messages (state (final (process_pdf f w))) = messages (state w)
  /\ chat_session (state (final (process_pdf f w))) = chat_session (state w)
  /\ next_object (final (process_pdf f w)) = next_object w.
Proof.
  intros He Hf. rewrite (process_pdf_failure_eq f w t He Hf). simpl.
  repeat split.
Qed.

Lemma process_pdf_failure_witness :
  shown (process_pdf unreadable_pdf loaded_world)
    = [SidebarError (error_reading (lit "No /Root object!"))]
  /\ result (process_pdf unreadable_pdf loaded_world) = Next tt
  /\ pdf_text_context (state (final (process_pdf unreadable_pdf loaded_world))) = None
  /\ messages (state (final (process_pdf unreadable_pdf loaded_world)))
     = messages (state loaded_world)
  /\ chat_session (state (final (process_pdf unreadable_pdf loaded_world)))
     = chat_session (state loaded_world)
  /\ next_object (final (process_pdf unreadable_pdf loaded_world))
     = next_object loaded_world.
Proof.
  apply (@process_pdf_failure unreadable_pdf loaded_world
           (error_reading (lit "No /Root object!"))).
  - reflexivity.
  - vm_compute. reflexivity.
Defined.

(** C1 (as stated) fails: with a document loaded, a failed extraction
    does not leave the session state as it was, it drops the document. *)
Lemma process_pdf_failure_changes_state :
  extract_text_from_pdf (Some unreadable_pdf)
    = Some (error_reading (lit "No /Root object!"))
  /\ is_failure_text (error_reading (lit "No /Root object!")) = true
  /\ pdf_text_context (state loaded_world) = Some (lit "Balance: $100")
  /\ pdf_text_context (state (final (process_pdf unreadable_pdf loaded_world))) = None
  /\ state (final (process_pdf unreadable_pdf loaded_world)) <> state loaded_world.
Proof.
  repeat split; try reflexivity. vm_compute. discriminate.
Qed.

(** C9.  The handler treats the extracted string as a failure exactly
    when it contains "Error reading PDF" or "No text could be
    extracted": then it is shown as an error and [pdf_text_context] is
    [None]; otherwise the string becomes [pdf_text_context].  So a PDF
    that opens, raises nowhere and whose own text contains one of the two
    phrases is handled as a failed extraction, and its text is not
    stored. *)
Theorem process_pdf_classification (f : pdf) (w : world) (t : str) :
  extract_text_from_pdf (Some f) = Some t ->
  ((Substring (lit "Error reading PDF") t
    \/ Substring (lit "No text could be extracted") t) ->
   shown (process_pdf f w) = [SidebarError t]
   /\ pdf_text_context (state (final (process_pdf f w))) = None)
  /\ (~ (Substring (lit "Error reading PDF") t
         \/ Substring (lit "No text could be extracted") t) ->
      ~ In (SidebarError t) (shown (process_pdf f w))
      /\ pdf_text_context (state (final (process_pdf f w))) = Some t)
  /\ (forall pages,
        f = Opened pages ->
        existsb page_raises pages = false ->
        joined_text pages <> [] ->
        (Substring (lit "Error reading PDF") (strip (joined_text pages))
         \/ Substring (lit "No text could be extracted") (strip (joined_text pages))) ->
        t = strip (joined_text pages)
        /\ shown (process_pdf f w) = [SidebarError t]
        /\ pdf_text_context (state (final (process_pdf f w))) <> Some t).
Proof.
  intros He. split; [|split].
  - intros Hs. apply is_failure_text_spec in Hs.
    rewrite (process_pdf_failure_eq f w t He Hs). split; reflexivity.
  - intros Hs. assert (Hf : is_failure_text t = false).
    { destruct (is_failure_text t) eqn:E; [|reflexivity].
      apply is_failure_text_spec in E. contradiction. }
    rewrite (process_pdf_success_eq f w t He Hf). simpl. split; [|reflexivity].
    intros [H | [H | [H | []]]]; discriminate H.
  - intros pages -> Hr Hj Hs.
    rewrite (extract_joined pages Hr Hj) in He. injection He as <-.
    apply is_failure_text_spec in Hs.
    rewrite (process_pdf_failure_eq (Opened pages) w _ (extract_joined pages Hr Hj) Hs).
    simpl. repeat split. discriminate.
Qed.

Lemma process_pdf_classification_witness :
  shown (process_pdf phrase_pdf loaded_world)
    = [SidebarError (lit "Error reading PDF files is a frequent support request.")]
  /\ pdf_text_context (state (final (process_pdf phrase_pdf loaded_world))) = None.
Proof.
  destruct (@process_pdf_classification phrase_pdf loaded_world
              (lit "Error reading PDF files is a frequent support request.")
              eq_refl) as [H _].
  apply H. left. apply contains_spec. reflexivity.
Defined.

End ProcessPdf.

(* ================================================================= *)
(** ** The three operations that reset the chat *)

Section Operations.


Lemma load_pdf_text_eq (t : str) (w : world) :
  final (load_pdf_text t w) =
  {| state := {| chat_session := {| cs_id := next_object w; history := [] |};
                 messages := [];
                 pdf_text_context := Some t |};
     next_object := S (next_object w) |}
  /\ result (load_pdf_text t w) = Rerun.
Proof. split; reflexivity. Qed.

Lemma clear_pdf_context_and_chat_eq (w : world) :
  final (clear_pdf_context_and_chat w) =
  {| state := {| chat_session := {| cs_id := next_object w; history := [] |};
                 messages := [];
                 pdf_text_context := None |};
     next_object := S (next_object w) |}
  /\ result (clear_pdf_context_and_chat w) = Rerun.
Proof. split; reflexivity. Qed.

Lemma clear_chat_only_eq (w : world) :
  final (clear_chat_only w) =
  {| state := {| chat_session := {| cs_id := next_object w; history := [] |};
                 messages := [];
                 pdf_text_context := pdf_text_context (state w) |};
     next_object := S (next_object w) |}
  /\ result (clear_chat_only w) = Rerun.
Proof. split; reflexivity. Qed.

(** C7.  Clearing the PDF context leaves [pdf_text_context] at [None]
    whatever it was; clearing the chat only leaves [pdf_text_context] as
    it was, for the body of the handler and for its block of the script
    when the button is pressed. *)
Theorem clear_document_and_reset_chat (w : world) :
  pdf_text_context (state (final (clear_pdf_context_and_chat w))) = None
  /\ pdf_text_context (state (final (clear_chat_only w)))
     = pdf_text_context (state w)
  /\ pdf_text_context (state (final (clear_chat_block true w)))
     = pdf_text_context (state w).
Proof. repeat split. Qed.

(** The button of line 93 exists when a document is loaded; pressing it
    then clears the document. *)
Lemma pdf_context_block_clears (w : world) :
  truthy_opt (pdf_text_context (state w)) = true ->
  pdf_text_context (state (final (pdf_context_block true w))) = None
  /\ result (pdf_context_block true w) = Rerun.
Proof.
  intros H. unfold pdf_context_block, bind. simpl. rewrite H. split; reflexivity.
Qed.

End Operations.

(* ================================================================= *)
(** ** Chat input *)

Section Chat.

Variable remote : service.

Lemma bind_next {A B} (m : script A) (k : A -> script B) (w w1 : world)
    (a : A) (s1 : list effect) :
  m w = {| result := Next a; final := w1; shown := s1 |} ->
  bind m k w =
  {| result := result (k a w1); final := final (k a w1);
     shown := s1 ++ shown (k a w1) |}.
Proof. intros H. unfold bind. rewrite H. reflexivity. Qed.

(** What the prompt is turned into. *)
Lemma prepare_prompt_loaded (prompt : str) (w : world) (d : str) :
  pdf_text_context (state w) = Some d -> d <> [] ->
  prepare_prompt prompt w =
  {| result := Next (statement_prompt d prompt);
     final := w;
     shown := if (TRUNCATION_THRESHOLD <? len (statement_prompt d prompt))%Z
              then [Warning truncation_warning] else [] |}.
Proof.
  destruct w as [[c ms ctx] n]. cbn [pdf_text_context state]. intros -> Hd.
  destruct d as [|x d]; [now destruct Hd|].
  unfold prepare_prompt.
  rewrite (@bind_next _ _ read _ _ _ _ _ eq_refl).
  cbn [state pdf_text_context truthy_opt truthy].
  destruct (TRUNCATION_THRESHOLD <? len (statement_prompt (x :: d) prompt))%Z;
    reflexivity.
Qed.

Lemma prepare_prompt_unloaded (prompt : str) (w : world) :
  truthy_opt (pdf_text_context (state w)) = false ->
  prepare_prompt prompt w =
  {| result := Next prompt; final := w; shown := [] |}.
Proof.
  intros H. unfold prepare_prompt.
  rewrite (@bind_next _ _ read _ _ _ _ _ eq_refl).
  rewrite H. reflexivity.
Qed.

(** The exchange with the service: a reply is shown and recorded; an
    error is shown and recorded as the assistant's message, and the
    handler goes on. *)
Lemma get_response_eq (final_prompt : str) (w : world) :
  get_response remote final_prompt w =
  match remote (history (chat_session (state w))) final_prompt with
  | Reply bot_reply =>
      {| result := Next tt;
         final := {| state :=
                       {| chat_session :=
                            {| cs_id := cs_id (chat_session (state w));
                               history := history (chat_session (state w))
                                          ++ [(final_prompt, bot_reply)] |};
                          messages := messages (state w)
                                      ++ [ {| role := assistant; content := bot_reply |} ];
                          pdf_text_context := pdf_text_context (state w) |};
                     next_object := next_object w |};
         shown := [SendMessage (cs_id (chat_session (state w))) final_prompt;
                   ChatMarkdown assistant bot_reply] |}
  | ApiError detail =>
      {| result := Next tt;
         final := {| state :=
                       {| chat_session := chat_session (state w);
                          messages := messages (state w)
                                      ++ [ {| role := assistant;
                                              content := communication_error detail |} ];
                          pdf_text_context := pdf_text_context (state w) |};
                     next_object := next_object w |};
         shown := [SendMessage (cs_id (chat_session (state w))) final_prompt;
                   Error (communication_error detail)] |}
  end.
Proof.
  unfold get_response, try_except, bind, send_message.
  destruct (remote (history (chat_session (state w))) final_prompt);
    reflexivity.
Qed.

Lemma sent_app (a b : list effect) : sent (a ++ b) = sent a ++ sent b.
Proof.
  induction a as [|e a IH]; [reflexivity|].
  destruct e; simpl; now rewrite IH.
Qed.

Lemma warned_app (a b : list effect) : warned (a ++ b) = warned a || warned b.
Proof. unfold warned. apply existsb_app. Qed.

Lemma get_response_sent (final_prompt : str) (w : world) :
  sent (shown (get_response remote final_prompt w)) = [final_prompt]
  /\ warned (shown (get_response remote final_prompt w)) = false
  /\ result (get_response remote final_prompt w) = Next tt
  /\ pdf_text_context (state (final (get_response remote final_prompt w)))
     = pdf_text_context (state w)
  /\ next_object (final (get_response remote final_prompt w)) = next_object w
  /\ cs_id (chat_session (state (final (get_response remote final_prompt w))))
     = cs_id (chat_session (state w)).
Proof.
  rewrite get_response_eq.
  destruct (remote (history (chat_session (state w))) final_prompt);
    repeat split.
Qed.

(** The handler, from what [prepare_prompt] produced on the session that
    already holds the user's message. *)
Lemma chat_eq (prompt : str) (w : world) (final_prompt : str)
    (warnings : list effect) :
  prepare_prompt prompt (final (append_message {| role := user; content := prompt |} w))
  = {| result := Next final_prompt;
       final := final (append_message {| role := user; content := prompt |} w);
       shown := warnings |} ->
  chat remote prompt w =
  {| result := result (get_response remote final_prompt
                         (final (append_message {| role := user; content := prompt |} w)));
     final := final (get_response remote final_prompt
                       (final (append_message {| role := user; content := prompt |} w)));
     shown := [ChatMarkdown user prompt] ++ warnings
              ++ shown (get_response remote final_prompt
                          (final (append_message {| role := user; content := prompt |} w))) |}.
Proof.
  intros Hp. unfold chat.
  rewrite (@bind_next _ _ (append_message _) _ _ _ _ _ eq_refl).
  rewrite (@bind_next _ _ (emit _) _ _ _ _ _ eq_refl).
  rewrite (@bind_next _ _ (prepare_prompt _) _ _ _ _ _ Hp).
  reflexivity.
Qed.

Lemma chat_loaded (prompt : str) (w : world) (d : str) :
  pdf_text_context (state w) = Some d -> d <> [] ->
  sent (shown (chat remote prompt w)) = [statement_prompt d prompt]
  /\ warned (shown (chat remote prompt w))
     = (TRUNCATION_THRESHOLD <? len (statement_prompt d prompt))%Z.
Proof.
  intros Hc Hd.
  rewrite (chat_eq prompt w _ _
             (prepare_prompt_loaded prompt
                (final (append_message {| role := user; content := prompt |} w))
                d Hc Hd)).
  cbn [shown]. rewrite !sent_app, !warned_app.
  destruct (get_response_sent (statement_prompt d prompt)
              (final (append_message {| role := user; content := prompt |} w)))
    as (-> & -> & _).
  destruct (TRUNCATION_THRESHOLD <? len (statement_prompt d prompt))%Z;
    split; reflexivity.
Qed.

Lemma chat_unloaded (prompt : str) (w : world) :
  truthy_opt (pdf_text_context (state w)) = false ->
  sent (shown (chat remote prompt w)) = [prompt]
  /\ warned (shown (chat remote prompt w)) = false.
Proof.
  intros Hc.
  rewrite (chat_eq prompt w _ _
             (prepare_prompt_unloaded prompt
                (final (append_message {| role := user; content := prompt |} w))
                Hc)).
  cbn [shown]. rewrite !sent_app, !warned_app.
  destruct (get_response_sent prompt
              (final (append_message {| role := user; content := prompt |} w)))
    as (-> & -> & _).
  split; reflexivity.
Qed.

(** Whatever the session holds, [prepare_prompt] returns a prompt and
    does not touch the session. *)
Lemma prepare_prompt_total (prompt : str) (w : world) :
  exists final_prompt warnings,
    prepare_prompt prompt w
    = {| result := Next final_prompt; final := w; shown := warnings |}
    /\ sent warnings = [].
Proof.
  destruct (pdf_text_context (state w)) as [[|x d]|] eqn:E.
  - exists prompt, []. split; [|reflexivity].
    apply prepare_prompt_unloaded. now rewrite E.
  - eexists _, _. split.
    + apply (prepare_prompt_loaded prompt w (x :: d) E). discriminate.
    + now destruct (TRUNCATION_THRESHOLD <? _)%Z.
  - exists prompt, []. split; [|reflexivity].
    apply prepare_prompt_unloaded. now rewrite E.
Qed.

End Chat.

(* ================================================================= *)
(** ** What is sent, what is warned about, what is recorded *)

Section ChatProperties.

Variable remote : service.

(** C4 (as amended).  With a non-empty document text in the session, the
    payload sent is the instruction template: the fixed heading, the
    whole document text between the START and END marker lines, then
    "User's Question: " and the user's text.  With no document, the
    payload is the user's text itself. *)
Theorem chat_payload (prompt : str) (w : world) :
  (forall d, pdf_text_context (state w) = Some d -> d <> [] ->
     sent (shown (chat remote prompt w))
     = [ lit "Based on the following bank statement text, please answer the user's question."
         ++ [NL; NL]
         ++ lit "--- BANK STATEMENT TEXT START ---" ++ [NL]
         ++ d ++ [NL]
         ++ lit "--- BANK STATEMENT TEXT END ---" ++ [NL; NL]
         ++ lit "User's Question: " ++ prompt ])
  /\ (pdf_text_context (state w) = None ->
      sent (shown (chat remote prompt w)) = [prompt]).
Proof.
  split.
  - intros d Hc Hd. apply (chat_loaded remote prompt w d Hc Hd).
  - intros Hc. apply chat_unloaded. now rewrite Hc.
Qed.

(** C5 (as amended).  With a non-empty document text in the session, the
    warning is surfaced exactly when the payload is longer than 28,000
    characters, and the payload is sent in either case. *)
Theorem chat_truncation_warning (prompt : str) (w : world) (d : str) :
  pdf_text_context (state w) = Some d -> d <> [] ->
  sent (shown (chat remote prompt w)) = [statement_prompt d prompt]
  /\ (warned (shown (chat remote prompt w)) = true
      <-> (28000 < len (statement_prompt d prompt))%Z)
  /\ result (chat remote prompt w) = Next tt.
Proof.
  intros Hc Hd. destruct (chat_loaded remote prompt w d Hc Hd) as [Hs Hw].
  split; [exact Hs|]. split.
  - rewrite Hw. apply Z.ltb_lt.
  - destruct (prepare_prompt_total prompt
                (final (append_message {| role := user; content := prompt |} w)))
      as (fp & ws & Hp & _).
    rewrite (chat_eq remote prompt w fp ws Hp). cbn [result].
    apply get_response_sent.
Qed.

(** C10.  With no document in the session no warning is surfaced,
    however long the user's text is; the text is sent as it is. *)
Theorem chat_no_document_no_warning (prompt : str) (w : world) :
  pdf_text_context (state w) = None ->
  warned (shown (chat remote prompt w)) = false
  /\ sent (shown (chat remote prompt w)) = [prompt].
Proof.
  intros Hc. destruct (chat_unloaded remote prompt w) as [Hs Hw].
  - now rewrite Hc.
  - split; assumption.
Qed.

(** C6 (as amended).  The handler always runs to its end.  When the
    service fails with [detail], the messages gain the user's text and
    then, from the assistant, the cross mark followed by
    " Error communicating with Gemini: " and [detail]; when it replies,
    they gain the user's text and the reply.  [pdf_text_context] is as it
    was in both cases. *)
Theorem chat_records_reply_or_error (prompt : str) (w : world) :
  result (chat remote prompt w) = Next tt
  /\ pdf_text_context (state (final (chat remote prompt w)))
     = pdf_text_context (state w)
  /\ exists payload,
       sent (shown (chat remote prompt w)) = [payload]
       /\ match remote (history (chat_session (state w))) payload with
          | ApiError detail =>
              messages (state (final (chat remote prompt w)))
              = messages (state w)
                ++ [ {| role := user; content := prompt |};
                     {| role := assistant;
                        content := [10060%N]
                                   ++ lit " Error communicating with Gemini: "
                                   ++ detail |} ]
          | Reply bot_reply =>
              messages (state (final (chat remote prompt w)))
              = messages (state w)
                ++ [ {| role := user; content := prompt |};
                     {| role := assistant; content := bot_reply |} ]
          end.
Proof.
  destruct (prepare_prompt_total prompt
              (final (append_message {| role := user; content := prompt |} w)))
    as (fp & ws & Hp & Hws).
  rewrite (chat_eq remote prompt w fp ws Hp). cbn [result final shown].
  pose proof (get_response_sent remote fp
                (final (append_message {| role := user; content := prompt |} w)))
    as (Hs & Hw & Hr & Hc & _).
  split; [exact Hr|]. split; [exact Hc|].
  exists fp. split.
  - rewrite !sent_app, Hs, Hws. reflexivity.
  - rewrite get_response_eq.
    cbn [append_message modify final state chat_session history messages].
    destruct (remote (history (chat_session (state w))) fp);
      cbn [final state messages]; now rewrite <- app_assoc.
Qed.

End ChatProperties.

Section ChatExamples.

Lemma text_of_length_len (n : N) : len (text_of_length n) = Z.of_N n.
Proof.
  unfold len, text_of_length. rewrite repeat_length. lia.
Qed.

Lemma text_of_length_nonempty (n : N) : (0 < n)%N -> text_of_length n <> [].
Proof.
  intros H E. apply (f_equal len) in E. rewrite text_of_length_len in E.
  unfold len in E. simpl in E. lia.
Qed.

Lemma statement_prompt_len (d prompt : str) :
  len (statement_prompt d prompt) = (165 + len d + len prompt)%Z.
Proof.
  unfold statement_prompt, len. rewrite !length_app.
  change (length (lit "Based on the following bank statement text, please answer the user's question.")) with 78.
  change (length (lit "--- BANK STATEMENT TEXT START ---")) with 33.
  change (length (lit "--- BANK STATEMENT TEXT END ---")) with 31.
  change (length (lit "User's Question: ")) with 17.
  simpl length. lia.
Qed.

Lemma chat_payload_witness :
  sent (shown (chat echo question loaded_world))
  = [ lit "Based on the following bank statement text, please answer the user's question."
      ++ [NL; NL]
      ++ lit "--- BANK STATEMENT TEXT START ---" ++ [NL]
      ++ lit "Balance: $100" ++ [NL]
      ++ lit "--- BANK STATEMENT TEXT END ---" ++ [NL; NL]
      ++ lit "User's Question: " ++ question ]
  /\ sent (shown (chat echo question (new_session 0))) = [question].
Proof.
  split.
  - apply (proj1 (chat_payload echo question loaded_world)).
    + reflexivity.
    + vm_compute. discriminate.
  - apply (proj2 (chat_payload echo question (new_session 0))). reflexivity.
Defined.

(** The session that holds an empty document text is the one left by
    processing a PDF whose only page extracts to a space. *)
Lemma empty_text_world_reached :
  final (process_pdf blank_page_pdf (new_session 0)) = empty_text_world
  /\ result (process_pdf blank_page_pdf (new_session 0)) = Rerun.
Proof. split; reflexivity. Qed.

(** C4 (as stated) fails: a document text can be present and empty, and
    then the user's text is sent as it is, not the template. *)
Lemma chat_payload_empty_document :
  pdf_text_context (state empty_text_world) = Some []
  /\ sent (shown (chat echo question empty_text_world)) = [question]
  /\ sent (shown (chat echo question empty_text_world))
     <> [statement_prompt [] question].
Proof.
  split; [reflexivity|].
  destruct (chat_unloaded echo question empty_text_world eq_refl) as [-> _].
  split; [reflexivity|]. vm_compute. discriminate.
Qed.

Lemma chat_truncation_warning_witness :
  len (statement_prompt (text_of_length 29815) question) = 30000%Z
  /\ warned (shown (chat echo question (statement_world 29815))) = true
  /\ sent (shown (chat echo question (statement_world 29815)))
     = [statement_prompt (text_of_length 29815) question].
Proof.
  assert (L : len (statement_prompt (text_of_length 29815) question) = 30000%Z).
  { rewrite statement_prompt_len, text_of_length_len. reflexivity. }
  destruct (chat_truncation_warning echo question (statement_world 29815)
              (text_of_length 29815) eq_refl
              (text_of_length_nonempty 29815 eq_refl))
    as (Hs & Hw & _).
  split; [exact L|]. split; [|exact Hs].
  apply Hw. rewrite L. reflexivity.
Defined.

(** A payload of 27,000 characters, and one of exactly 28,000, raise no
    warning; one of 28,001 does. *)
Lemma chat_shorter_payload_no_warning :
  len (statement_prompt (text_of_length 26815) question) = 27000%Z
  /\ warned (shown (chat echo question (statement_world 26815))) = false
  /\ len (statement_prompt (text_of_length 27815) question) = 28000%Z
  /\ warned (shown (chat echo question (statement_world 27815))) = false
  /\ len (statement_prompt (text_of_length 27816) question) = 28001%Z
  /\ warned (shown (chat echo question (statement_world 27816))) = true.
Proof.
  assert (L : forall n, len (statement_prompt (text_of_length n) question)
                        = (185 + Z.of_N n)%Z).
  { intros n. rewrite statement_prompt_len, text_of_length_len.
    change (len question) with 20%Z. lia. }
  assert (W : forall n, (0 < n)%N ->
                warned (shown (chat echo question (statement_world n)))
                = (28000 <? 185 + Z.of_N n)%Z).
  { intros n Hn.
    destruct (chat_loaded echo question (statement_world n) (text_of_length n)
                eq_refl (text_of_length_nonempty n Hn)) as [_ ->].
    now rewrite L. }
  rewrite !L, !W by reflexivity. repeat split.
Qed.

(** C5 (as stated) fails: with no document, a question of 30,000
    characters is a payload of 30,000 characters, and no warning is
    surfaced. *)
Lemma chat_long_question_no_warning :
  pdf_text_context (state (new_session 0)) = None
  /\ sent (shown (chat echo (text_of_length 30000) (new_session 0)))
     = [text_of_length 30000]
  /\ len (text_of_length 30000) = 30000%Z
  /\ (28000 < len (text_of_length 30000))%Z
  /\ warned (shown (chat echo (text_of_length 30000) (new_session 0))) = false.
Proof.
  destruct (chat_unloaded echo (text_of_length 30000) (new_session 0) eq_refl)
    as [-> ->].
  rewrite text_of_length_len. repeat split.
Qed.

Lemma chat_no_document_no_warning_witness :
  (28000 < len (text_of_length 30000))%Z
  /\ warned (shown (chat echo (text_of_length 30000) (new_session 0))) = false
  /\ sent (shown (chat echo (text_of_length 30000) (new_session 0)))
     = [text_of_length 30000].
Proof.
  split.
  - rewrite text_of_length_len. reflexivity.
  - apply (chat_no_document_no_warning echo (text_of_length 30000) (new_session 0)).
    reflexivity.
Defined.

(** C6 (as stated) fails: the recorded message is not "Error
    communicating with <service>: quota exceeded" for any service name;
    it starts with a cross mark. *)
Lemma chat_error_message_has_prefix :
  messages (state (final (chat quota_exceeded question (new_session 0))))
  = [ {| role := user; content := question |};
      {| role := assistant;
         content := [10060%N] ++ lit " Error communicating with Gemini: quota exceeded" |} ]
  /\ ~ (exists service_name,
          messages (state (final (chat quota_exceeded question (new_session 0))))
          = [ {| role := user; content := question |};
              {| role := assistant;
                 content := lit "Error communicating with " ++ service_name
                            ++ lit ": quota exceeded" |} ]).
Proof.
  split; [vm_compute; reflexivity|].
  intros [service_name H]. vm_compute in H. discriminate H.
Qed.

End ChatExamples.

(* ================================================================= *)
(** ** One run of the script *)

Section Run.

Variable remote : service.

Lemma keeps_or_restarts_bind (m : script unit) (k : unit -> script unit)
    (w : world) :
  keeps_chat w (m w) \/ restarts_chat w (m w) ->
  (forall w1, keeps_chat w1 (k tt w1) \/ restarts_chat w1 (k tt w1)) ->
  keeps_chat w (bind m k w) \/ restarts_chat w (bind m k w).
Proof.
  unfold keeps_chat, restarts_chat, bind.
  intros [(Hr & Hc & Hn) | (Hr & Hm & Hh & Hc & Hn)] Hk; rewrite Hr.
  - cbn [result final]. rewrite <- Hc, <- Hn. apply Hk.
  - right. cbn [result final]. repeat split; assumption.
Qed.

Lemma ret_keeps (w : world) : keeps_chat w (ret tt w).
Proof. repeat split. Qed.

Lemma process_pdf_block_ends (f : option pdf) (clicked : bool) (w : world) :
  keeps_chat w (process_pdf_block f clicked w)
  \/ restarts_chat w (process_pdf_block f clicked w).
Proof.
  unfold process_pdf_block.
  destruct f as [f|]; [|left; apply ret_keeps].
  destruct clicked; [|left; apply ret_keeps].
  destruct (extract_some f) as [t He].
  destruct (is_failure_text t) eqn:Hf.
  - left. rewrite (process_pdf_failure_eq f w t He Hf). repeat split.
  - right. rewrite (process_pdf_success_eq f w t He Hf). repeat split.
Qed.

Lemma pdf_context_block_ends (clicked : bool) (w : world) :
  keeps_chat w (pdf_context_block clicked w)
  \/ restarts_chat w (pdf_context_block clicked w).
Proof.
  unfold pdf_context_block.
  rewrite (@bind_next _ _ read _ _ _ _ _ eq_refl).
  destruct (truthy_opt (pdf_text_context (state w))); [|left; repeat split].
  destruct clicked; [right | left]; repeat split.
Qed.

Lemma display_eq (ms : list message) (w : world) :
  result (display ms w) = Next tt /\ final (display ms w) = w.
Proof.
  induction ms as [|m ms [IHr IHf]]; [split; reflexivity|].
  cbn [display]. rewrite (@bind_next _ _ (emit _) _ _ _ _ _ eq_refl).
  cbn [result final]. split; assumption.
Qed.

Lemma display_messages_ends (w : world) : keeps_chat w (display_messages w).
Proof.
  unfold display_messages.
  rewrite (@bind_next _ _ read _ _ _ _ _ eq_refl). cbn [result final].
  destruct (display_eq (messages (state w)) w) as [Hr Hf].
  unfold keeps_chat. rewrite Hr, Hf. repeat split.
Qed.

Lemma chat_ends (prompt : str) (w : world) : keeps_chat w (chat remote prompt w).
Proof.
  destruct (prepare_prompt_total prompt
              (final (append_message {| role := user; content := prompt |} w)))
    as (fp & ws & Hp & _).
  rewrite (chat_eq remote prompt w fp ws Hp).
  pose proof (get_response_sent remote fp
                (final (append_message {| role := user; content := prompt |} w)))
    as (_ & _ & Hr & _ & Hn & Hc).
  unfold keeps_chat. cbn [result final]. rewrite Hr, Hn, Hc. repeat split.
Qed.

Lemma chat_block_ends (i : option str) (w : world) :
  keeps_chat w (chat_block remote i w).
Proof.
  unfold chat_block. destruct i as [prompt|]; [|apply ret_keeps].
  destruct (truthy prompt); [apply chat_ends | apply ret_keeps].
Qed.

Lemma clear_chat_block_ends (clicked : bool) (w : world) :
  keeps_chat w (clear_chat_block clicked w)
  \/ restarts_chat w (clear_chat_block clicked w).
Proof. destruct clicked; [right | left]; repeat split. Qed.

(** A run either keeps the chat session object it started with, or ends
    in a rerun with no message and the next new chat session. *)
Lemma app_ends (i : inputs) (w : world) :
  keeps_chat w (app remote i w) \/ restarts_chat w (app remote i w).
Proof.
  unfold app.
  apply keeps_or_restarts_bind; [apply process_pdf_block_ends | intros w1].
  apply keeps_or_restarts_bind; [apply pdf_context_block_ends | intros w2].
  apply keeps_or_restarts_bind; [left; apply display_messages_ends | intros w3].
  apply keeps_or_restarts_bind; [left; apply chat_block_ends | intros w4].
  apply clear_chat_block_ends.
Qed.


(** Whenever a run replaces the chat session, it leaves no message. *)
Lemma app_replaced_chat_no_message (i : inputs) (w : world) :
  cs_id (chat_session (state (final (app remote i w))))
    <> cs_id (chat_session (state w)) ->
  messages (state (final (app remote i w))) = []
  /\ history (chat_session (state (final (app remote i w)))) = [].
Proof.
  intros H.
  destruct (app_ends i w) as [(_ & Hc & _) | (_ & Hm & Hh & _)].
  - contradiction.
  - split; assumption.
Qed.

End Run.

(* ================================================================= *)
(** ** Messages and the chat session go together *)

Section ChatReset.

(** C8.  From a session whose chat session was created earlier, each of
    the three operations (loading a document, clearing the document,
    clearing the chat only) leaves no message and installs a chat session
    that is a new object with an empty history, different from the one
    in use before.  And whatever the user does in a run of the script, if
    the chat session at its end is another object than at its start then
    no message is left. *)
Theorem operations_reset_chat (w : world) (t : str) :
  well_formed w ->
  chat_reset w (final (load_pdf_text t w))
  /\ chat_reset w (final (clear_pdf_context_and_chat w))
  /\ chat_reset w (final (clear_chat_only w))
  /\ (forall remote i,
        cs_id (chat_session (state (final (app remote i w))))
          <> cs_id (chat_session (state w)) ->
        messages (state (final (app remote i w))) = []).
Proof.
  unfold chat_reset, well_formed. intros H.
  repeat split; simpl; try reflexivity; try lia.
  intros remote i Hc. now apply app_replaced_chat_no_message.
Qed.

Lemma operations_reset_chat_witness :
  chat_reset loaded_world (final (load_pdf_text (lit "Balance: $200") loaded_world))
  /\ chat_reset loaded_world (final (clear_pdf_context_and_chat loaded_world))
  /\ chat_reset loaded_world (final (clear_chat_only loaded_world)).
Proof.
  destruct (operations_reset_chat loaded_world (lit "Balance: $200"))
    as (H1 & H2 & H3 & _).
  - unfold well_formed. simpl. lia.
  - exact (conj H1 (conj H2 H3)).
Defined.

End ChatReset.

(* ================================================================= *)
(** ** More on the extractor *)

Section ExtractorMore.

Lemma extract_pages_app (pre rest : list page) (acc : str) :
  existsb page_raises pre = false ->
  extract_pages (pre ++ rest) acc = extract_pages rest (acc ++ joined_text pre).
Proof.
  revert acc. induction pre as [|p pre IH]; intros acc H;
    rewrite <- ?app_comm_cons, ?app_nil_l.
  - cbn [joined_text]. now rewrite app_nil_r.
  - destruct p as [[t|]|d]; cbn [existsb page_raises orb] in H;
      try discriminate; cbn [extract_pages joined_text].
    + destruct (truthy t); rewrite IH by exact H.
      * now rewrite <- !app_assoc.
      * reflexivity.
    + now apply IH.
Qed.

Lemma extract_pages_skip (p : page) (pre post : list page) (acc : str) :
  p = PageText None \/ p = PageText (Some []) ->
  extract_pages (pre ++ p :: post) acc = extract_pages (pre ++ post) acc.
Proof.
  intros Hp. revert acc. induction pre as [|q pre IH]; intros acc;
    rewrite <- ?app_comm_cons, ?app_nil_l.
  - destruct Hp as [-> | ->]; reflexivity.
  - destruct q as [[t|]|d]; cbn [extract_pages]; [|apply IH|reflexivity].
    destruct (truthy t); apply IH.
Qed.

Lemma no_text_message_trimmed : Trimmed no_text_message.
Proof.
  assert (E : strip no_text_message = no_text_message) by reflexivity.
  rewrite <- E. apply strip_trimmed.
Qed.

(** X1.  When a page raises, the text of the pages before it is dropped:
    the result is the "Error reading PDF" text with the detail of the
    first page that raises, whatever comes after it. *)
Theorem extract_first_raising_page (pre post : list page) (d : str) :
  existsb page_raises pre = false ->
  extract_text_from_pdf (Some (Opened (pre ++ PageRaises d :: post)))
  = Some (lit "Error reading PDF: " ++ d ++ lit ". Is it a valid PDF file?").
Proof.
  intros H. unfold extract_text_from_pdf.
  rewrite (extract_pages_app pre (PageRaises d :: post) [] H). reflexivity.
Qed.

Lemma extract_first_raising_page_witness :
  extract_text_from_pdf
    (Some (Opened ([PageText (Some (lit "Balance: $100"))]
                   ++ PageRaises (lit "bad xref") :: [PageText (Some (lit "Balance: $200"))])))
  = Some (lit "Error reading PDF: " ++ lit "bad xref" ++ lit ". Is it a valid PDF file?").
Proof.
  apply (extract_first_raising_page
           [PageText (Some (lit "Balance: $100"))]
           [PageText (Some (lit "Balance: $200"))] (lit "bad xref")).
  reflexivity.
Defined.

(** X2.  A page whose text is [None] or the empty string leaves no trace:
    the result is the same as for the PDF without that page, wherever
    the page stands and whatever the other pages do. *)
Theorem extract_skips_empty_pages (pre post : list page) :
  extract_text_from_pdf (Some (Opened (pre ++ PageText None :: post)))
  = extract_text_from_pdf (Some (Opened (pre ++ post)))
  /\ extract_text_from_pdf (Some (Opened (pre ++ PageText (Some []) :: post)))
     = extract_text_from_pdf (Some (Opened (pre ++ post))).
Proof.
  unfold extract_text_from_pdf. split.
  - rewrite (extract_pages_skip (PageText None) pre post []); tauto.
  - rewrite (extract_pages_skip (PageText (Some [])) pre post []); tauto.
Qed.

(** X3.  When no page raises, the string returned carries no whitespace
    at either end, and it is empty exactly when some page had text and
    all the text was whitespace. *)
Theorem extract_readable_trimmed (pages : list page) :
  existsb page_raises pages = false ->
  exists t,
    extract_text_from_pdf (Some (Opened pages)) = Some t
    /\ Trimmed t
    /\ (t = [] <->
        joined_text pages <> [] /\ forallb is_space (joined_text pages) = true).
Proof.
  intros H. unfold extract_text_from_pdf.
  rewrite (extract_pages_joined pages [] H). cbn [List.app].
  destruct (joined_text pages) as [|c l] eqn:E; cbn [truthy].
  - exists no_text_message. split; [reflexivity|].
    split; [apply no_text_message_trimmed|].
    split; [discriminate | intros [Hn _]; now destruct Hn].
  - exists (strip (c :: l)). split; [reflexivity|].
    split; [apply strip_trimmed|].
    rewrite strip_empty. split.
    + intros Hs. split; [discriminate | exact Hs].
    + intros [_ Hs]. exact Hs.
Qed.

Lemma extract_readable_trimmed_witness :
  exists t,
    extract_text_from_pdf (Some blank_page_pdf) = Some t
    /\ Trimmed t
    /\ (t = [] <->
        joined_text [PageText (Some (lit " "))] <> []
        /\ forallb is_space (joined_text [PageText (Some (lit " "))]) = true).
Proof.
  apply (extract_readable_trimmed [PageText (Some (lit " "))]). reflexivity.
Defined.

End ExtractorMore.

(* ================================================================= *)
(** ** More on Process PDF *)

Section ProcessPdfMore.

Lemma unreadable_failure_text (f : pdf) :
  unreadable f = true ->
  exists t, extract_text_from_pdf (Some f) = Some t /\ is_failure_text t = true.
Proof.
  destruct f as [d | pages]; cbn [unreadable]; intros H.
  - exists (error_reading d). split; [reflexivity | apply error_reading_is_failure].
  - destruct (existsb page_raises pages) eqn:Hr.
    + destruct (extract_pages_raises pages [] Hr) as [d Hd].
      exists (error_reading d). unfold extract_text_from_pdf. rewrite Hd.
      split; [reflexivity | apply error_reading_is_failure].
    + cbn [orb] in H. exists no_text_message.
      split; [|apply no_text_is_failure].
      apply (extract_no_text pages Hr).
      destruct (joined_text pages); [reflexivity | discriminate H].
Qed.

(** X4.  A PDF that cannot be opened, or has a page that raises, or has
    no page with text never becomes the document: the handler shows one
    error in the sidebar, leaves no document in the session, keeps the
    messages and the chat session, and the run goes on. *)
Theorem process_pdf_unreadable (f : pdf) (w : world) :
  unreadable f = true ->
  (exists reason, shown (process_pdf f w) = [SidebarError reason])
  /\ result (process_pdf f w) = Next tt
  /\ pdf_text_context (state (final (process_pdf f w))) = None
  /\ messages (state (final (process_pdf f w))) = messages (state w)
  /\ chat_session (state (final (process_pdf f w))) = chat_session (state w).
Proof.
  intros H. destruct (unreadable_failure_text f H) as (t & He & Hf).
  rewrite (process_pdf_failure_eq f w t He Hf). cbn.
  repeat split. now exists t.
Qed.

Lemma process_pdf_unreadable_witness :
  (exists reason,
     shown (process_pdf (Opened [PageText None; PageText (Some [])]) loaded_world)
     = [SidebarError reason])
  /\ result (process_pdf (Opened [PageText None; PageText (Some [])]) loaded_world)
     = Next tt
  /\ pdf_text_context
       (state (final (process_pdf (Opened [PageText None; PageText (Some [])])
                        loaded_world))) = None
  /\ messages
       (state (final (process_pdf (Opened [PageText None; PageText (Some [])])
                        loaded_world))) = messages (state loaded_world)
  /\ chat_session
       (state (final (process_pdf (Opened [PageText None; PageText (Some [])])
                        loaded_world))) = chat_session (state loaded_world).
Proof.
  apply (process_pdf_unreadable (Opened [PageText None; PageText (Some [])])
           loaded_world).
  reflexivity.
Defined.



End ProcessPdfMore.

(* ================================================================= *)
(** ** More on one run of the script *)

Section RunMore.

Variable remote : service.

Lemma bind_ends {A B} (m : script A) (k : A -> script B) (w : world) :
  (forall a, result (m w) <> Next a) ->
  final (bind m k w) = final (m w)
  /\ shown (bind m k w) = shown (m w)
  /\ (forall b, result (bind m k w) <> Next b)
  /\ (result (m w) = Rerun -> result (bind m k w) = Rerun)
  /\ (result (m w) = Stop -> result (bind m k w) = Stop).
Proof.
  intros H. unfold bind. destruct (result (m w)) as [a| | |d] eqn:E.
  - now destruct (H a).
  - repeat split; discriminate.
  - repeat split; discriminate.
  - repeat split; discriminate.
Qed.

Lemma sent_bind {A B} (m : script A) (k : A -> script B) (w : world) :
  sent (shown (bind m k w))
  = sent (shown (m w))
    ++ match result (m w) with
       | Next a => sent (shown (k a (final (m w))))
       | _ => []
       end.
Proof.
  unfold bind. destruct (result (m w)); cbn [shown];
    now rewrite ?sent_app, ?app_nil_r.
Qed.

Lemma silent_bind {A B} (m : script A) (k : A -> script B) :
  silent m -> (forall a, silent (k a)) -> silent (bind m k).
Proof.
  intros Hm Hk w. rewrite sent_bind, Hm.
  destruct (result (m w)); [apply Hk | reflexivity..].
Qed.

Lemma preserves_bind {A B} (P : world -> Prop) (m : script A)
    (k : A -> script B) :
  preserves P m -> (forall a, preserves P (k a)) -> preserves P (bind m k).
Proof.
  intros Hm Hk w Hw. unfold bind.
  destruct (result (m w)) eqn:E; cbn [final]; [apply Hk|..]; now apply Hm.
Qed.

Lemma display_outcome (ms : list message) (w : world) :
  display ms w = {| result := Next tt; final := w; shown := transcript ms |}.
Proof.
  induction ms as [|m ms IH]; [reflexivity|].
  cbn [display]. rewrite (@bind_next _ _ (emit _) _ _ _ _ _ eq_refl).
  rewrite IH. reflexivity.
Qed.

Lemma display_messages_outcome (w : world) :
  display_messages w
  = {| result := Next tt; final := w;
       shown := transcript (messages (state w)) |}.
Proof.
  unfold display_messages. rewrite (@bind_next _ _ read _ _ _ _ _ eq_refl).
  rewrite display_outcome. reflexivity.
Qed.

Lemma sent_transcript (ms : list message) : sent (transcript ms) = [].
Proof. induction ms as [|m ms IH]; [reflexivity | exact IH]. Qed.

Lemma process_pdf_block_silent (f : option pdf) (clicked : bool) :
  silent (process_pdf_block f clicked).
Proof.
  intros w. unfold process_pdf_block.
  destruct f as [f|]; [|reflexivity]. destruct clicked; [|reflexivity].
  destruct (extract_some f) as [t He].
  destruct (is_failure_text t) eqn:Hf.
  - now rewrite (process_pdf_failure_eq f w t He Hf).
  - now rewrite (process_pdf_success_eq f w t He Hf).
Qed.

Lemma pdf_context_block_silent (clicked : bool) :
  silent (pdf_context_block clicked).
Proof.
  intros w. unfold pdf_context_block.
  rewrite (@bind_next _ _ read _ _ _ _ _ eq_refl). cbn [shown List.app].
  destruct (truthy_opt (pdf_text_context (state w))); [|reflexivity].
  destruct clicked; reflexivity.
Qed.

Lemma display_messages_silent : silent display_messages.
Proof.
  intros w. rewrite display_messages_outcome. apply sent_transcript.
Qed.

Lemma clear_chat_block_silent (clicked : bool) :
  silent (clear_chat_block clicked).
Proof. intros w. destruct clicked; reflexivity. Qed.

Lemma chat_sent_one (prompt : str) (w : world) :
  exists payload, sent (shown (chat remote prompt w)) = [payload].
Proof.
  destruct (prepare_prompt_total prompt
              (final (append_message {| role := user; content := prompt |} w)))
    as (fp & ws & Hp & Hws).
  exists fp. rewrite (chat_eq remote prompt w fp ws Hp). cbn [shown].
  rewrite !sent_app, Hws.
  now destruct (get_response_sent remote fp
                  (final (append_message {| role := user; content := prompt |} w)))
    as [-> _].
Qed.

(** X6.  The transcript loop renders every stored message, in the order
    of the list, each under its own role, and changes nothing. *)
Theorem display_messages_transcript (w : world) :
  shown (display_messages w)
  = map (fun m => ChatMarkdown (role m) (content m)) (messages (state w))
  /\ final (display_messages w) = w
  /\ result (display_messages w) = Next tt.
Proof. rewrite display_messages_outcome. repeat split. Qed.

(** X7.  A run in which no button is pressed and nothing is submitted
    (in particular the run [st.rerun()] starts) leaves the session as it
    was, calls the service with nothing, and renders the "PDF context is
    loaded" banner when a non-empty document is stored, then the
    transcript. *)
Theorem app_idle (f : option pdf) (w : world) :
  final (app remote (idle f) w) = w
  /\ result (app remote (idle f) w) = Next tt
  /\ shown (app remote (idle f) w)
     = (if truthy_opt (pdf_text_context (state w))
        then [InfoBox ([8505%N; 65039%N] ++ lit " PDF context is loaded. Your questions will be answered based on the uploaded document.")]
        else [])
       ++ transcript (messages (state w)).
Proof.
  unfold app, idle.
  cbn [uploaded_pdf process_clicked clear_pdf_clicked chat_input
       clear_chat_clicked].
  assert (H1 : process_pdf_block f false w
               = {| result := Next tt; final := w; shown := [] |})
    by (destruct f; reflexivity).
  rewrite (@bind_next _ _ (process_pdf_block f false) _ _ _ _ _ H1).
  assert (H2 : pdf_context_block false w
               = {| result := Next tt; final := w;
                    shown := if truthy_opt (pdf_text_context (state w))
                             then [InfoBox ([8505%N; 65039%N] ++ lit " PDF context is loaded. Your questions will be answered based on the uploaded document.")]
                             else [] |}).
  { unfold pdf_context_block. rewrite (@bind_next _ _ read _ _ _ _ _ eq_refl).
    destruct (truthy_opt (pdf_text_context (state w))); reflexivity. }
  rewrite (@bind_next _ _ (pdf_context_block false) _ _ _ _ _ H2).
  rewrite (@bind_next _ _ display_messages _ _ _ _ _ (display_messages_outcome w)).
  cbn [result final shown chat_block clear_chat_block bind ret List.app].
  rewrite !app_nil_r. repeat split.
Qed.

(** X8.  When the Process PDF button loads a document, the run ends
    there: the rest of the script is not executed in that run, so even
    with a question submitted nothing is sent to the service and nothing
    but the three sidebar notices is rendered. *)
Theorem app_process_ends_run (i : inputs) (w : world) (f : pdf) (t : str) :
  uploaded_pdf i = Some f ->
  process_clicked i = true ->
  extract_text_from_pdf (Some f) = Some t ->
  is_failure_text t = false ->
  result (app remote i w) = Rerun
  /\ shown (app remote i w) = shown (process_pdf f w)
  /\ sent (shown (app remote i w)) = []
  /\ messages (state (final (app remote i w))) = []
  /\ pdf_text_context (state (final (app remote i w))) = Some t.
Proof.
  intros Hu Hc He Hf. unfold app. rewrite Hu, Hc. cbn [process_pdf_block].
  destruct (bind_ends (process_pdf f)
              (fun _ => pdf_context_block (clear_pdf_clicked i) ;;
                        display_messages ;;
                        chat_block remote (chat_input i) ;;
                        clear_chat_block (clear_chat_clicked i)) w)
    as (Hfin & Hsh & _ & Hr & _).
  { rewrite (process_pdf_success_eq f w t He Hf). discriminate. }
  rewrite Hfin, Hsh, Hr
    by (now rewrite (process_pdf_success_eq f w t He Hf)).
  rewrite (process_pdf_success_eq f w t He Hf). repeat split.
Qed.

(** X9.  A run calls the chat service at most once, and not at all when
    no non-empty text was submitted in the chat input. *)
Theorem app_sends_at_most_once (i : inputs) (w : world) :
  (length (sent (shown (app remote i w))) <= 1)%nat
  /\ (truthy_opt (chat_input i) = false -> sent (shown (app remote i w)) = []).
Proof.
  remember (sent (shown (app remote i w))) as S eqn:ES.
  assert (H : S = []
              \/ (truthy_opt (chat_input i) = true /\ exists payload, S = [payload])).
  { unfold app in ES. rewrite sent_bind, process_pdf_block_silent in ES.
    cbn [List.app] in ES.
    destruct (result (process_pdf_block _ _ w)); [|now left..].
    rewrite sent_bind, pdf_context_block_silent in ES. cbn [List.app] in ES.
    destruct (result (pdf_context_block _ _)); [|now left..].
    rewrite sent_bind, display_messages_silent in ES. cbn [List.app] in ES.
    destruct (result (display_messages _)); [|now left..].
    rewrite sent_bind in ES.
    assert (Hk : forall w' (r : flow unit),
               match r with
               | Next a => sent (shown (clear_chat_block (clear_chat_clicked i) w'))
               | _ => []
               end = []).
    { intros w' r. destruct r; [apply clear_chat_block_silent | reflexivity..]. }
    rewrite Hk, app_nil_r in ES.
    unfold chat_block in ES. destruct (chat_input i) as [prompt|]; [|now left].
    cbn [truthy_opt]. destruct (truthy prompt); [|now left].
    right. split; [reflexivity|]. rewrite ES. apply chat_sent_one. }
  destruct H as [-> | [Ht [payload ->]]].
  - split; [cbn; lia | reflexivity].
  - split; [cbn; lia | rewrite Ht; discriminate].
Qed.

End RunMore.

(* ================================================================= *)
(** ** What every run keeps *)

Section Invariants.

Variable remote : service.

Lemma turns_app_pair (ms : list message) (e : role_name) (u a : message) :
  role u = user -> role a = assistant ->
  turns e (ms ++ [u; a]) = turns e ms.
Proof.
  intros Hu Ha. revert e. induction ms as [|m ms IH]; intros e.
  - cbn. rewrite Hu, Ha. now destruct e.
  - cbn [List.app turns]. now rewrite IH.
Qed.

Lemma strip_fixed_trimmed (s : str) : strip s = s -> Trimmed s.
Proof. intros E. rewrite <- E. apply strip_trimmed. Qed.

(** What is loaded is the trimmed text of the pages. *)
Lemma loaded_text_trimmed (f : pdf) (t : str) :
  extract_text_from_pdf (Some f) = Some t ->
  is_failure_text t = false -> Trimmed t.
Proof.
  destruct f as [d | pages]; cbn [extract_text_from_pdf]; intros He Hf.
  - injection He as <-. now rewrite error_reading_is_failure in Hf.
  - destruct (extract_pages pages []) as [d | full_text].
    + injection He as <-. now rewrite error_reading_is_failure in Hf.
    + destruct (truthy full_text); injection He as <-.
      * apply strip_trimmed.
      * now rewrite no_text_is_failure in Hf.
Qed.

Lemma chat_final (prompt : str) (w : world) :
  exists c x,
    state (final (chat remote prompt w))
    = {| chat_session := c;
         messages := (messages (state w) ++ [ {| role := user; content := prompt |} ])
                     ++ [ {| role := assistant; content := x |} ];
         pdf_text_context := pdf_text_context (state w) |}.
Proof.
  destruct (prepare_prompt_total prompt
              (final (append_message {| role := user; content := prompt |} w)))
    as (fp & ws & Hp & _).
  rewrite (chat_eq remote prompt w fp ws Hp). cbn [final].
  rewrite get_response_eq.
  destruct (remote _ fp); eexists _, _; reflexivity.
Qed.

(** The messages keep coming in turns. *)

Lemma process_pdf_block_alternating (f : option pdf) (clicked : bool) :
  preserves alternating (process_pdf_block f clicked).
Proof.
  intros w H. unfold process_pdf_block.
  destruct f as [f|]; [|exact H]. destruct clicked; [|exact H].
  destruct (extract_some f) as [t He].
  destruct (is_failure_text t) eqn:Hf.
  - now rewrite (process_pdf_failure_eq f w t He Hf).
  - now rewrite (process_pdf_success_eq f w t He Hf).
Qed.

Lemma pdf_context_block_alternating (clicked : bool) :
  preserves alternating (pdf_context_block clicked).
Proof.
  intros w H. unfold pdf_context_block.
  rewrite (@bind_next _ _ read _ _ _ _ _ eq_refl). cbn [final].
  destruct (truthy_opt (pdf_text_context (state w))); [|exact H].
  destruct clicked; [reflexivity | exact H].
Qed.

Lemma display_messages_alternating : preserves alternating display_messages.
Proof. intros w H. now rewrite display_messages_outcome. Qed.

Lemma chat_block_alternating (i : option str) :
  preserves alternating (chat_block remote i).
Proof.
  intros w H. unfold chat_block. destruct i as [prompt|]; [|exact H].
  destruct (truthy prompt); [|exact H].
  destruct (chat_final prompt w) as (c & x & E).
  unfold alternating in *. rewrite E. cbn [messages].
  rewrite <- app_assoc. cbn [List.app].
  now rewrite turns_app_pair.
Qed.

Lemma clear_chat_block_alternating (clicked : bool) :
  preserves alternating (clear_chat_block clicked).
Proof. intros w H. destruct clicked; [reflexivity | exact H]. Qed.

Lemma app_alternating (i : inputs) : preserves alternating (app remote i).
Proof.
  unfold app.
  apply preserves_bind; [apply process_pdf_block_alternating | intros _].
  apply preserves_bind; [apply pdf_context_block_alternating | intros _].
  apply preserves_bind; [apply display_messages_alternating | intros _].
  apply preserves_bind; [apply chat_block_alternating | intros _].
  apply clear_chat_block_alternating.
Qed.

(** The stored document stays clean. *)

Lemma process_pdf_block_clean (f : option pdf) (clicked : bool) :
  preserves document_clean (process_pdf_block f clicked).
Proof.
  intros w H. unfold process_pdf_block.
  destruct f as [f|]; [|exact H]. destruct clicked; [|exact H].
  destruct (extract_some f) as [t He].
  destruct (is_failure_text t) eqn:Hf.
  - now rewrite (process_pdf_failure_eq f w t He Hf).
  - rewrite (process_pdf_success_eq f w t He Hf).
    unfold document_clean. cbn [final state pdf_text_context].
    split; [exact Hf | exact (loaded_text_trimmed f t He Hf)].
Qed.

Lemma pdf_context_block_clean (clicked : bool) :
  preserves document_clean (pdf_context_block clicked).
Proof.
  intros w H. unfold pdf_context_block.
  rewrite (@bind_next _ _ read _ _ _ _ _ eq_refl). cbn [final].
  destruct (truthy_opt (pdf_text_context (state w))); [|exact H].
  destruct clicked; [exact I | exact H].
Qed.

Lemma display_messages_clean : preserves document_clean display_messages.
Proof. intros w H. now rewrite display_messages_outcome. Qed.

Lemma chat_block_clean (i : option str) :
  preserves document_clean (chat_block remote i).
Proof.
  intros w H. unfold chat_block. destruct i as [prompt|]; [|exact H].
  destruct (truthy prompt); [|exact H].
  destruct (chat_final prompt w) as (c & x & E).
  unfold document_clean in *. now rewrite E.
Qed.

Lemma clear_chat_block_clean (clicked : bool) :
  preserves document_clean (clear_chat_block clicked).
Proof. intros w H. destruct clicked; exact H. Qed.

Lemma app_clean (i : inputs) : preserves document_clean (app remote i).
Proof.
  unfold app.
  apply preserves_bind; [apply process_pdf_block_clean | intros _].
  apply preserves_bind; [apply pdf_context_block_clean | intros _].
  apply preserves_bind; [apply display_messages_clean | intros _].
  apply preserves_bind; [apply chat_block_clean | intros _].
  apply clear_chat_block_clean.
Qed.


(** X10.  If the stored messages come in turns (user, assistant, user,
    assistant, ...) before a run, they do after it, whatever was pressed
    or submitted and whatever the service answered. *)
Theorem app_keeps_turns (i : inputs) (w : world) :
  alternating w -> alternating (final (app remote i w)).
Proof. apply app_alternating. Qed.

(** X11.  If the stored document is clean before a run (no document, or
    a text with no whitespace at either end that contains neither
    "Error reading PDF" nor "No text could be extracted"), it is clean
    after the run. *)
Theorem app_keeps_document_clean (i : inputs) (w : world) :
  document_clean w -> document_clean (final (app remote i w)).
Proof. apply app_clean. Qed.

(** X12.  Chat session objects are used in the order of their creation:
    after a run the chat session is the one in use before, or the next
    new object, and then the messages and its history are empty; its
    identity never goes back to that of an earlier object. *)
Theorem app_chat_session_order (i : inputs) (w : world) :
  well_formed w ->
  well_formed (final (app remote i w))
  /\ (cs_id (chat_session (state w))
      <= cs_id (chat_session (state (final (app remote i w)))))%nat
  /\ (next_object w <= next_object (final (app remote i w)))%nat
  /\ (cs_id (chat_session (state (final (app remote i w))))
      = cs_id (chat_session (state w))
      \/ (cs_id (chat_session (state (final (app remote i w)))) = next_object w
          /\ messages (state (final (app remote i w))) = []
          /\ history (chat_session (state (final (app remote i w)))) = [])).
Proof.
  unfold well_formed. intros H.
  destruct (app_ends remote i w)
    as [(_ & Hc & Hn) | (_ & Hm & Hh & Hc & Hn)]; rewrite Hc, Hn.
  - repeat split; lia.
  - repeat split; try lia. right. repeat split; assumption.
Qed.


End Invariants.

Section InvariantExamples.

Lemma app_keeps_turns_witness :
  alternating
    (final (app quota_exceeded
              {| uploaded_pdf := None; process_clicked := false;
                 clear_pdf_clicked := false; chat_input := Some question;
                 clear_chat_clicked := false |} loaded_world)).
Proof.
  apply (app_keeps_turns quota_exceeded
           {| uploaded_pdf := None; process_clicked := false;
              clear_pdf_clicked := false; chat_input := Some question;
              clear_chat_clicked := false |} loaded_world).
  reflexivity.
Defined.

Lemma app_keeps_document_clean_witness :
  document_clean
    (final (app echo
              {| uploaded_pdf := Some two_page_pdf; process_clicked := true;
                 clear_pdf_clicked := false; chat_input := None;
                 clear_chat_clicked := false |} (new_session 0))).
Proof.
  apply (app_keeps_document_clean echo
           {| uploaded_pdf := Some two_page_pdf; process_clicked := true;
              clear_pdf_clicked := false; chat_input := None;
              clear_chat_clicked := false |} (new_session 0)).
  cbn. exact I.
Defined.

Lemma app_chat_session_order_witness :
  well_formed (final (app echo (idle None) loaded_world))
  /\ (cs_id (chat_session (state loaded_world))
      <= cs_id (chat_session (state (final (app echo (idle None) loaded_world)))))%nat.
Proof.
  destruct (app_chat_session_order echo (idle None) loaded_world)
    as (H1 & H2 & _).
  - unfold well_formed. simpl. lia.
  - split; assumption.
Defined.

End InvariantExamples.

(* ================================================================= *)
(** ** The credential check and the rest of the script *)

Section Credential.

Variable remote : service.

(** X14.  With a non-empty key and a configuration that does not raise,
    the script runs as if the check were not there.  With no key, an
    empty key, or a configuration that raises, the run stops after one
    error: the session is as it was and the chat service is not called,
    whatever was pressed or submitted. *)
Theorem main_credential (GOOGLE_API_KEY configure_raises : option str)
    (i : inputs) (w : world) :
  (truthy_opt GOOGLE_API_KEY = true /\ configure_raises = None ->
   result (main GOOGLE_API_KEY configure_raises remote i w) = result (app remote i w)
   /\ final (main GOOGLE_API_KEY configure_raises remote i w) = final (app remote i w)
   /\ shown (main GOOGLE_API_KEY configure_raises remote i w) = shown (app remote i w))
  /\ (truthy_opt GOOGLE_API_KEY = false \/ configure_raises <> None ->
      result (main GOOGLE_API_KEY configure_raises remote i w) = Stop
      /\ final (main GOOGLE_API_KEY configure_raises remote i w) = w
      /\ sent (shown (main GOOGLE_API_KEY configure_raises remote i w)) = []
      /\ exists text,
           shown (main GOOGLE_API_KEY configure_raises remote i w) = [Error text]).
Proof.
  split.
  - intros [Hk ->]. unfold main.
    assert (E : configuration GOOGLE_API_KEY None w
                = {| result := Next tt; final := w; shown := [] |}).
    { unfold configuration. rewrite Hk. reflexivity. }
    rewrite (@bind_next _ _ (configuration GOOGLE_API_KEY None) _ _ _ _ _ E).
    repeat split.
  - intros H.
    assert (E : exists text,
               configuration GOOGLE_API_KEY configure_raises w
               = {| result := Stop; final := w; shown := [Error text] |}).
    { unfold configuration.
      destruct (truthy_opt GOOGLE_API_KEY) eqn:Hk; cbn [negb].
      - destruct configure_raises as [e|].
        + eexists. reflexivity.
        + destruct H as [H | H]; [discriminate H | now destruct H].
      - eexists. reflexivity. }
    destruct E as [text E]. unfold main, bind. rewrite E. cbn [result final shown].
    repeat split. now exists text.
Qed.

End Credential.

Section CredentialExamples.

Lemma main_credential_witness :
  result (main (Some []) None echo
            {| uploaded_pdf := Some two_page_pdf; process_clicked := true;
               clear_pdf_clicked := false; chat_input := Some question;
               clear_chat_clicked := false |} loaded_world) = Stop
  /\ final (main (Some []) None echo
              {| uploaded_pdf := Some two_page_pdf; process_clicked := true;
                 clear_pdf_clicked := false; chat_input := Some question;
                 clear_chat_clicked := false |} loaded_world) = loaded_world.
Proof.
  destruct (proj2 (main_credential echo (Some []) None
              {| uploaded_pdf := Some two_page_pdf; process_clicked := true;
                 clear_pdf_clicked := false; chat_input := Some question;
                 clear_chat_clicked := false |} loaded_world))
    as (H1 & H2 & _).
  - left. reflexivity.
  - split; assumption.
Defined.

End CredentialExamples.

(* ================================================================= *)
(** ** Questions after a change of document *)

Section Sequences.

Variable remote : service.

(** X15.  With a non-empty document stored, the warning appears exactly
    when the lengths of the document and of the question add up to more
    than 27,835 characters: the template itself takes 165. *)
Theorem chat_warning_length (prompt : str) (w : world) (d : str) :
  pdf_text_context (state w) = Some d -> d <> [] ->
  len (statement_prompt d prompt) = (165 + len d + len prompt)%Z
  /\ (warned (shown (chat remote prompt w)) = true
      <-> (27835 < len d + len prompt)%Z).
Proof.
  intros Hc Hd. split; [apply statement_prompt_len|].
  destruct (chat_loaded remote prompt w d Hc Hd) as [_ ->].
  rewrite statement_prompt_len. unfold TRUNCATION_THRESHOLD.
  rewrite Z.ltb_lt. lia.
Qed.

(** X16.  After a Process PDF action that failed, the next question is
    sent as it is, without any document and without warning, even if a
    document was loaded before the failure. *)
Theorem chat_after_failed_upload (f : pdf) (w : world) (t prompt : str) :
  extract_text_from_pdf (Some f) = Some t ->
  is_failure_text t = true ->
  sent (shown (chat remote prompt (final (process_pdf f w)))) = [prompt]
  /\ warned (shown (chat remote prompt (final (process_pdf f w)))) = false.
Proof.
  intros He Hf. apply chat_unloaded.
  now rewrite (process_pdf_failure_eq f w t He Hf).
Qed.

(** X17.  The first question after a document was loaded goes to a
    conversation with an empty history, carries the new document, and
    the messages then hold this question and its answer only. *)
Theorem chat_after_load (t prompt : str) (w : world) :
  t <> [] ->
  sent (shown (chat remote prompt (final (load_pdf_text t w))))
  = [statement_prompt t prompt]
  /\ messages (state (final (chat remote prompt (final (load_pdf_text t w)))))
     = [ {| role := user; content := prompt |};
         {| role := assistant;
            content := match remote [] (statement_prompt t prompt) with
                       | Reply bot_reply => bot_reply
                       | ApiError detail => communication_error detail
                       end |} ].
Proof.
  intros Ht. destruct (load_pdf_text_eq t w) as [E _]. rewrite E.
  set (w1 := {| state := _; next_object := S (next_object w) |}).
  split.
  - apply (chat_loaded remote prompt w1 t eq_refl Ht).
  - rewrite (chat_eq remote prompt w1 _ _
               (prepare_prompt_loaded prompt
                  (final (append_message {| role := user; content := prompt |} w1))
                  t eq_refl Ht)).
    cbn [final]. rewrite get_response_eq.
    cbn [append_message modify final state chat_session history messages w1
         List.app].
    destruct (remote [] (statement_prompt t prompt)); reflexivity.
Qed.

End Sequences.

Section SequenceExamples.

Lemma chat_warning_length_witness :
  warned (shown (chat echo question (statement_world 27816))) = true.
Proof.
  destruct (chat_warning_length echo question (statement_world 27816)
              (text_of_length 27816) eq_refl
              (text_of_length_nonempty 27816 eq_refl)) as [_ H].
  apply H. rewrite text_of_length_len. reflexivity.
Defined.

Lemma chat_after_failed_upload_witness :
  sent (shown (chat echo question (final (process_pdf unreadable_pdf loaded_world))))
  = [question]
  /\ warned (shown (chat echo question
                      (final (process_pdf unreadable_pdf loaded_world)))) = false.
Proof.
  apply (chat_after_failed_upload echo unreadable_pdf loaded_world
           (error_reading (lit "No /Root object!")) question).
  - reflexivity.
  - vm_compute. reflexivity.
Defined.

Lemma chat_after_load_witness :
  sent (shown (chat quota_exceeded question
                 (final (load_pdf_text (lit "Balance: $200") loaded_world))))
  = [statement_prompt (lit "Balance: $200") question].
Proof.
  apply (chat_after_load quota_exceeded (lit "Balance: $200") question loaded_world).
  vm_compute. discriminate.
Defined.

End SequenceExamples.

(* ================================================================= *)
(** ** Session initialisation *)

Section Initialisation.

(** X18.  Initialisation stops the run in one case only: the model is
    not in the session yet and creating it raises.  Then the session is
    left as it was and the one error shown carries the exception text.
    The "Model not initialized" error of line 53 is never shown. *)
Theorem initialise_stops_on_model_failure (model_raises : option str)
    (r : raw_session) (next : nat) :
  (init_result (initialise model_raises r next) = Stop
   <-> model_key r = None /\ model_raises <> None)
  /\ (init_result (initialise model_raises r next) = Stop ->
      init_session (initialise model_raises r next) = r
      /\ init_next (initialise model_raises r next) = next
      /\ exists e, model_raises = Some e
                   /\ init_shown (initialise model_raises r next)
                      = [Error (model_init_error e)])
  /\ ~ In (Error model_missing_error)
          (init_shown (initialise model_raises r next)).
Proof.
  split; [|split].
  - destruct r as [[m|] [c|] [ms|] [t|]]; destruct model_raises as [e|]; cbn;
      (split;
       [ intros H;
         first [discriminate H | split; [reflexivity | discriminate]]
       | intros [H1 H2];
         first [discriminate H1 | now destruct H2 | reflexivity] ]).
  - destruct r as [[m|] [c|] [ms|] [t|]]; destruct model_raises as [e|]; cbn;
      intros H;
      first [ discriminate H
            | split; [reflexivity | split; [reflexivity|]];
              eexists; split; reflexivity ].
  - destruct r as [[m|] [c|] [ms|] [t|]]; destruct model_raises as [e|]; cbn;
      intros Hin;
      first [ exact Hin
            | destruct Hin as [Hin | []]; vm_compute in Hin; discriminate Hin ].
Qed.



(** X20.  Initialisation is idempotent: run again on the session it
    produced, as it is on every later run of the script, it changes
    nothing, creates no chat session and shows nothing, whether or not
    creating a model would raise by then. *)
Theorem initialise_idempotent (model_raises again : option str)
    (r : raw_session) (next : nat) :
  init_result (initialise model_raises r next) = Next tt ->
  initialise again (init_session (initialise model_raises r next))
             (init_next (initialise model_raises r next))
  = {| init_result := Next tt;
       init_session := init_session (initialise model_raises r next);
       init_next := init_next (initialise model_raises r next);
       init_shown := [] |}.
Proof.
  destruct r as [[m|] [c|] [ms|] [t|]]; destruct model_raises as [e|];
    cbn; intros H; try discriminate H; reflexivity.
Qed.

Lemma initialise_idempotent_witness :
  initialise (Some (lit "quota exceeded"))
             (init_session (initialise None no_key 0))
             (init_next (initialise None no_key 0))
  = {| init_result := Next tt;
       init_session := init_session (initialise None no_key 0);
       init_next := init_next (initialise None no_key 0);
       init_shown := [] |}.
Proof.
  apply (initialise_idempotent None (Some (lit "quota exceeded")) no_key 0).
  reflexivity.
Defined.

End Initialisation.

Section MoreExamples.

Lemma app_process_ends_run_witness :
  result (app echo
            {| uploaded_pdf := Some two_page_pdf; process_clicked := true;
               clear_pdf_clicked := false; chat_input := Some question;
               clear_chat_clicked := true |} loaded_world) = Rerun
  /\ sent (shown (app echo
            {| uploaded_pdf := Some two_page_pdf; process_clicked := true;
               clear_pdf_clicked := false; chat_input := Some question;
               clear_chat_clicked := true |} loaded_world)) = [].
Proof.
  destruct (app_process_ends_run echo
              {| uploaded_pdf := Some two_page_pdf; process_clicked := true;
                 clear_pdf_clicked := false; chat_input := Some question;
                 clear_chat_clicked := true |}
              loaded_world two_page_pdf
              (lit "Balance: $100" ++ [NL; NL] ++ lit "Balance: $200")
              eq_refl eq_refl eq_refl eq_refl)
    as (H1 & _ & H3 & _).
  split; assumption.
Defined.

Lemma app_sends_at_most_once_witness :
  sent (shown (app echo
                 {| uploaded_pdf := None; process_clicked := false;
                    clear_pdf_clicked := true; chat_input := Some [];
                    clear_chat_clicked := true |} loaded_world)) = [].
Proof.
  apply (proj2 (app_sends_at_most_once echo
                  {| uploaded_pdf := None; process_clicked := false;
                     clear_pdf_clicked := true; chat_input := Some [];
                     clear_chat_clicked := true |} loaded_world)).
  reflexivity.
Defined.

Lemma initialise_stops_on_model_failure_witness :
  init_result (initialise (Some (lit "model not found")) no_key 0) = Stop.
Proof.
  apply (proj2 (proj1 (initialise_stops_on_model_failure
                         (Some (lit "model not found")) no_key 0))).
  split; [reflexivity | discriminate].
Defined.

End MoreExamples.
